(** * Prompt Management API (backend/main.py): model and properties

    The service is a FastAPI application over one SQLAlchemy table.  The
    handlers are embedded as programs over the database session; the table,
    the wall clock read by [datetime.utcnow] and the standard output are the
    state they run against. *)

From Stdlib Require Import ZArith List Ascii String Bool Lia.
From stdpp Require Import base decidable option strings gmap list.

Local Open Scope string_scope.
Local Open Scope list_scope.

(** ** Rows of the [prompts] table

    [class Prompt(Base)].  [id] is the integer primary key, [category] has a
    UNIQUE index.  [title], [prompt] and [is_active] are nullable columns:
    [update_prompt] can store [None] in them, so they are optional here.
    Timestamps are microseconds since the epoch. *)

Module Prompt.

Record t : Type := mk {
  id : Z;
  category : string;
  title : option string;
  prompt : option string;
  is_active : option bool;
  created_at : Z;
  updated_at : Z
}.

Definition set_title (v : option string) (p : t) : t :=
  mk (id p) (category p) v (prompt p) (is_active p) (created_at p) (updated_at p).

Definition set_prompt (v : option string) (p : t) : t :=
  mk (id p) (category p) (title p) v (is_active p) (created_at p) (updated_at p).

Definition set_is_active (v : option bool) (p : t) : t :=
  mk (id p) (category p) (title p) (prompt p) v (created_at p) (updated_at p).

Definition set_updated_at (v : Z) (p : t) : t :=
  mk (id p) (category p) (title p) (prompt p) (is_active p) (created_at p) v.

(** Keyword arguments given to the [Prompt] constructor: the seed dictionaries carry no
    [is_active] key, [PromptCreate.dict()] always carries one. *)
Record kwargs : Type := mk_kwargs {
  kw_category : string;
  kw_title : string;
  kw_prompt : string;
  kw_is_active : option bool
}.

End Prompt.

(** ** Pydantic models *)

(** [class PromptBase(BaseModel)], of which [PromptCreate] is an empty
    subclass. *)
Module PromptCreate.

Record t : Type := mk {
  category : string;
  title : string;
  prompt : string;
  is_active : bool
}.

(** Validation of a request body: [is_active: bool = True]. *)
Definition parse (category title prompt : string) (is_active : option bool) : t :=
  mk category title prompt (default true is_active).

(** [prompt.dict()] *)
Definition dict (p : t) : Prompt.kwargs :=
  Prompt.mk_kwargs (category p) (title p) (prompt p) (Some (is_active p)).

End PromptCreate.

(** [class PromptUpdate(BaseModel)]: every field is [Optional[...] = None].
    The outer option says whether the request body set the field (what
    [dict(exclude_unset=True)] keeps), the inner one is the value, which may
    be an explicit null. *)
Module PromptUpdate.

Record t : Type := mk {
  title : option (option string);
  prompt : option (option string);
  is_active : option (option bool)
}.

End PromptUpdate.

(** [setattr(prompt, field, value)] for the fields the handlers assign. *)
Inductive assignment : Type :=
| Title (v : option string)
| PromptText (v : option string)
| IsActive (v : option bool)
| UpdatedAt (v : Z).

Definition setattr (a : assignment) (p : Prompt.t) : Prompt.t :=
  match a with
  | Title v => Prompt.set_title v p
  | PromptText v => Prompt.set_prompt v p
  | IsActive v => Prompt.set_is_active v p
  | UpdatedAt v => Prompt.set_updated_at v p
  end.

(** [prompt_update.dict(exclude_unset=True).items()], in field order. *)
Definition update_data (u : PromptUpdate.t) : list assignment :=
  match PromptUpdate.title u with Some v => [Title v] | None => [] end ++
  match PromptUpdate.prompt u with Some v => [PromptText v] | None => [] end ++
  match PromptUpdate.is_active u with Some v => [IsActive v] | None => [] end.

(** [PromptListResponse.prompts]: category to [{"title": .., "prompt": ..}]. *)
Record entry : Type := mk_entry {
  entry_title : option string;
  entry_prompt : option string
}.

(** ** Exceptions and outcomes *)

Inductive exn : Type :=
| HTTPException (status_code : Z) (detail : string)
| IntegrityError (msg : string)
| InvalidRequestError (msg : string).

Definition exn_str (e : exn) : string :=
  match e with
  | HTTPException _ detail => detail
  | IntegrityError msg => msg
  | InvalidRequestError msg => msg
  end.

Inductive outcome (A : Type) : Type :=
| Returned (a : A)
| Raised (e : exn).
Arguments Returned {A} a.
Arguments Raised {A} e.

(** The [response_model] of a route: what FastAPI validates a returned value
    against before it is sent. *)
Class ResponseModel (A : Type) : Type := validate : A -> bool.

(** [class PromptResponse(PromptBase)]: [title: str], [prompt: str] and
    [is_active: bool] do not admit [None]. *)
#[export] Instance PromptResponse : ResponseModel Prompt.t := fun r =>
  match Prompt.title r, Prompt.prompt r, Prompt.is_active r with
  | Some _, Some _, Some _ => true
  | _, _, _ => false
  end.

(** [List[PromptResponse]] *)
#[export] Instance ListResponse {A} `{ResponseModel A} : ResponseModel (list A) :=
  fun l => forallb validate l.

(** [class PromptListResponse(BaseModel)]: [prompts: dict], any dictionary. *)
#[export] Instance PromptListResponse : ResponseModel (gmap string entry) :=
  fun _ => true.

(** The routes that return a plain dictionary declare no response model. *)
#[export] Instance PlainResponse : ResponseModel (gmap string string) :=
  fun _ => true.

(** What the HTTP transport answers: 200 for a returned value that passes
    the response model of its route and 500 for one that does not, the
    status of an [HTTPException], and 500 for any other exception. *)
Definition status_code {A} `{ResponseModel A} (o : outcome A) : Z :=
  match o with
  | Returned a => if validate a then 200 else 500
  | Raised (HTTPException s _) => s
  | Raised _ => 500
  end.

(** What is sent back of a returned value: the value, when it passes the
    response model. *)
Definition sent {A} `{ResponseModel A} (o : outcome A) : option A :=
  match o with
  | Returned a => if validate a then Some a else None
  | Raised _ => None
  end.

(** ** Session, world and database operations *)

(** An object known to a session: added and not yet inserted, or bound to a
    row, with the attribute values as loaded and as currently assigned. *)
Inductive obj : Type :=
| Pending (kw : Prompt.kwargs)
| Persistent (loaded current : Prompt.t).

Definition Session : Type := list obj.

Record World : Type := mk_world {
  table : list Prompt.t;
  utc : nat -> Z;
  reads : nat;
  stdout : list string
}.

Definition with_table (t : list Prompt.t) (w : World) : World :=
  mk_world t (utc w) (reads w) (stdout w).

Definition with_reads (n : nat) (w : World) : World :=
  mk_world (table w) (utc w) n (stdout w).

Definition with_stdout (o : list string) (w : World) : World :=
  mk_world (table w) (utc w) (reads w) o.

Inductive Op : Type -> Type :=
| QueryCount : Op nat
| QueryAll : Op (list Prompt.t)
| QueryActive : Op (list Prompt.t)
| QueryFirst (category : string) : Op (option (nat * Prompt.t))
| SetAttr (h : nat) (a : assignment) : Op unit
| Add (kw : Prompt.kwargs) : Op nat
| Commit : Op (option exn)
| Refresh (h : nat) : Op (option Prompt.t)
| Rollback : Op unit
| Close : Op unit
| Utcnow : Op Z
| Print (line : string) : Op unit.

(** *** The table *)

Definition has_category (c : string) (r : Prompt.t) : bool :=
  String.eqb (Prompt.category r) c.

Definition has_id (i : Z) (r : Prompt.t) : bool :=
  Z.eqb (Prompt.id r) i.

(** [db.query(Prompt).filter(Prompt.category == c).first()]: the record
    stored under a category, if any. *)
Definition stored (c : string) (t : list Prompt.t) : option Prompt.t :=
  find (has_category c) t.

(** [SELECT ... WHERE id = ?] *)
Definition row_of_id (i : Z) (t : list Prompt.t) : option Prompt.t :=
  find (has_id i) t.

(** [filter(Prompt.is_active == True)]: a NULL flag does not match. *)
Definition active (r : Prompt.t) : bool :=
  match Prompt.is_active r with
  | Some true => true
  | _ => false
  end.

(** Integer primary key of a new row: one more than the largest in use. *)
Definition next_id (t : list Prompt.t) : Z :=
  (1 + fold_right Z.max 0 (map Prompt.id t))%Z.

(** INSERT with the column defaults: [is_active] defaults to [True],
    [created_at] and [updated_at] each call [datetime.utcnow] on their own. *)
Definition insert_row (kw : Prompt.kwargs) (t : list Prompt.t) (c1 c2 : Z) : Prompt.t :=
  Prompt.mk (next_id t) (Prompt.kw_category kw)
    (Some (Prompt.kw_title kw)) (Some (Prompt.kw_prompt kw))
    (Some (default true (Prompt.kw_is_active kw))) c1 c2.

(** The columns an UPDATE writes are those whose assigned value differs from
    the loaded one. *)
Definition unchanged (loaded current : Prompt.t) : bool :=
  bool_decide (Prompt.title loaded = Prompt.title current) &&
  bool_decide (Prompt.prompt loaded = Prompt.prompt current) &&
  bool_decide (Prompt.is_active loaded = Prompt.is_active current) &&
  bool_decide (Prompt.updated_at loaded = Prompt.updated_at current).

(** UPDATE ... WHERE id = ?: changed columns take the assigned value; when
    [updated_at] is not among them its [onupdate=datetime.utcnow] hook
    supplies [stamp]. *)
Definition update_row (loaded current : Prompt.t) (stamp : Z) (row : Prompt.t) : Prompt.t :=
  Prompt.mk (Prompt.id row) (Prompt.category row)
    (if bool_decide (Prompt.title loaded = Prompt.title current)
     then Prompt.title row else Prompt.title current)
    (if bool_decide (Prompt.prompt loaded = Prompt.prompt current)
     then Prompt.prompt row else Prompt.prompt current)
    (if bool_decide (Prompt.is_active loaded = Prompt.is_active current)
     then Prompt.is_active row else Prompt.is_active current)
    (Prompt.created_at row)
    (if bool_decide (Prompt.updated_at loaded = Prompt.updated_at current)
     then stamp else Prompt.updated_at current).

Definition update_where_id (loaded current : Prompt.t) (stamp : Z)
    (t : list Prompt.t) : list Prompt.t :=
  map (fun row => if has_id (Prompt.id loaded) row
                  then update_row loaded current stamp row else row) t.

Definition unique_violation : exn :=
  IntegrityError "UNIQUE constraint failed: prompts.category".

(** Flush of a session inside one transaction: [t] is the transaction's view
    of the table, [n] the number of clock readings taken so far.  A failing
    statement aborts the whole flush. *)
Fixpoint flush (objs : list obj) (t : list Prompt.t) (clock : nat -> Z) (n : nat)
    : (exn * nat) + (list obj * list Prompt.t * nat) :=
  match objs with
  | [] => inr ([], t, n)
  | Pending kw :: rest =>
      if existsb (has_category (Prompt.kw_category kw)) t
      then inl (unique_violation, n)
      else
        let row := insert_row kw t (clock n) (clock (S n)) in
        match flush rest (t ++ [row]) clock (S (S n)) with
        | inl e => inl e
        | inr (objs', t', n') => inr (Persistent row row :: objs', t', n')
        end
  | Persistent loaded current :: rest =>
      if unchanged loaded current
      then
        match flush rest t clock n with
        | inl e => inl e
        | inr (objs', t', n') => inr (Persistent current current :: objs', t', n')
        end
      else
        let hook := bool_decide (Prompt.updated_at loaded = Prompt.updated_at current) in
        let t1 := update_where_id loaded current (clock n) t in
        match flush rest t1 clock (if hook then S n else n) with
        | inl e => inl e
        | inr (objs', t', n') => inr (Persistent current current :: objs', t', n')
        end
  end.

Definition set_obj (h : nat) (a : assignment) (s : Session) : Session :=
  match s !! h with
  | Some (Persistent loaded current) => <[h := Persistent loaded (setattr a current)]> s
  | _ => s
  end.

(** One database (or clock, or output) operation against the session of the
    request and the shared world. *)
Definition exec {X} (op : Op X) (s : Session) (w : World) : X * Session * World :=
  match op in Op X return X * Session * World with
  | QueryCount => (length (table w), s, w)
  | QueryAll => (table w, s, w)
  | QueryActive => (List.filter active (table w), s, w)
  | QueryFirst c =>
      match stored c (table w) with
      | Some r => (Some (length s, r), s ++ [Persistent r r], w)
      | None => (None, s, w)
      end
  | SetAttr h a => (tt, set_obj h a s, w)
  | Add kw => (length s, s ++ [Pending kw], w)
  | Commit =>
      match flush s (table w) (utc w) (reads w) with
      | inl (e, n) => (Some e, s, with_reads n w)
      | inr (s', t', n') => (None, s', with_reads n' (with_table t' w))
      end
  | Refresh h =>
      match s !! h with
      | Some (Persistent _ current) =>
          (row_of_id (Prompt.id current) (table w), s, w)
      | _ => (None, s, w)
      end
  | Rollback => (tt, [], w)
  | Close => (tt, [], w)
  | Utcnow => (utc w (reads w), s, with_reads (S (reads w)) w)
  | Print line => (tt, s, with_stdout (stdout w ++ [line]) w)
  end.

(** ** Programs *)

Inductive Prog (A : Type) : Type :=
| Ret (a : A)
| Raise (e : exn)
| Do {X : Type} (op : Op X) (k : X -> Prog A).
Arguments Ret {A} a.
Arguments Raise {A} e.
Arguments Do {A X} op k.

Fixpoint bind {A B} (p : Prog A) (f : A -> Prog B) : Prog B :=
  match p with
  | Ret a => f a
  | Raise e => Raise e
  | Do op k => Do op (fun x => bind (k x) f)
  end.

Definition call {X} (op : Op X) : Prog X := Do op Ret.

Declare Scope prog_scope.
Delimit Scope prog_scope with prog.
Notation "x <- p ;; q" := (bind p (fun x => q))
  (at level 100, p at next level, right associativity) : prog_scope.
Notation "p ;; q" := (bind p (fun _ => q))
  (at level 100, right associativity) : prog_scope.
Local Open Scope prog_scope.

(** [try: p except Exception as e: h e] *)
Fixpoint try_except {A} (p : Prog A) (h : exn -> Prog A) : Prog A :=
  match p with
  | Ret a => Ret a
  | Raise e => h e
  | Do op k => Do op (fun x => try_except (k x) h)
  end.

(** [try: p finally: f] *)
Fixpoint try_finally {A} (p : Prog A) (f : Prog unit) : Prog A :=
  match p with
  | Ret a => f ;; Ret a
  | Raise e => f ;; Raise e
  | Do op k => Do op (fun x => try_finally (k x) f)
  end.

Fixpoint run {A} (p : Prog A) (s : Session) (w : World) : outcome A * Session * World :=
  match p with
  | Ret a => (Returned a, s, w)
  | Raise e => (Raised e, s, w)
  | Do op k => let '(x, s', w') := exec op s w in run (k x) s' w'
  end.

(** The same program run among other transactions: [others] is what they
    have committed to the table between this program's reads and its own
    commit. *)
Fixpoint run_among {A} (others : list Prompt.t -> list Prompt.t)
    (p : Prog A) (s : Session) (w : World) : outcome A * Session * World :=
  match p with
  | Ret a => (Returned a, s, w)
  | Raise e => (Raised e, s, w)
  | Do op k =>
      let w1 := match op with
                | Commit => with_table (others (table w)) w
                | _ => w
                end in
      let '(x, s', w') := exec op s w1 in run_among others (k x) s' w'
  end.

Definition step {A} (p : Prog A) (s : Session) (w : World) : Prog A * Session * World :=
  match p with
  | Do op k => let '(x, s', w') := exec op s w in (k x, s', w')
  | _ => (p, s, w)
  end.

(** Two requests, each with its own session, sharing the world.  The
    schedule says which of them performs its next operation; when it is
    exhausted the first runs to its end, then the second. *)
Fixpoint interleave {A B} (schedule : list bool)
    (p : Prog A) (sp : Session) (q : Prog B) (sq : Session) (w : World)
    : outcome A * outcome B * World :=
  match schedule with
  | [] =>
      let '(a, _, w1) := run p sp w in
      let '(b, _, w2) := run q sq w1 in
      (a, b, w2)
  | true :: rest =>
      let '(p', sp', w') := step p sp w in interleave rest p' sp' q sq w'
  | false :: rest =>
      let '(q', sq', w') := step q sq w in interleave rest p sp q' sq' w'
  end.

Fixpoint for_each {X} (l : list X) (body : X -> Prog unit) : Prog unit :=
  match l with
  | [] => Ret tt
  | x :: rest => body x ;; for_each rest body
  end.

(** [db.commit()] *)
Definition commit : Prog unit :=
  r <- call Commit ;;
  match r with
  | Some e => Raise e
  | None => Ret tt
  end.

(** [db.refresh(obj)] *)
Definition refresh (h : nat) : Prog Prompt.t :=
  r <- call (Refresh h) ;;
  match r with
  | Some p => Ret p
  | None => Raise (InvalidRequestError "Could not refresh instance")
  end.

(** [db.add(obj)] *)
Definition add (kw : Prompt.kwargs) : Prog nat := call (Add kw).

(** [def get_db()]: the session is closed whatever the handler does. *)
Definition get_db {A} (handler : Prog A) : Prog A :=
  try_finally handler (call Close).

(** ** Seeding *)

(** The [default_prompts] list of [init_default_prompts]; none of the
    dictionaries has an [is_active] key. *)
Definition default_prompts : list Prompt.kwargs := [
  Prompt.mk_kwargs "roadmap"
    "Product Roadmap Analysis"
    "Analyze the repository data and provide strategic roadmap recommendations. Focus on:
1. Feature gaps based on commit patterns
2. Technical debt that should be prioritized
3. Performance improvements needed
4. User experience enhancements
5. Scalability considerations

Provide 3-5 roadmap items with titles, descriptions, priority levels (High/Medium/Low), and estimated effort."
    None;
  Prompt.mk_kwargs "vulnerabilities"
    "Security & Vulnerability Assessment"
    "Analyze the repository for potential security issues and vulnerabilities. Look for:
1. Security anti-patterns in commit messages
2. Dependencies that might have known vulnerabilities
3. Code patterns that could lead to security issues
4. Missing security best practices
5. Authentication and authorization concerns

Provide 3-5 security items with titles, descriptions, severity levels (Critical/High/Medium/Low), and specific recommendations."
    None;
  Prompt.mk_kwargs "teamAssignments"
    "Team Assignment Recommendations"
    "Based on the repository structure and commit patterns, recommend team assignments. Consider:
1. Code ownership patterns from commit history
2. Technology stack expertise requirements
3. Feature areas that need dedicated ownership
4. Cross-functional collaboration opportunities
5. Skill development needs

Provide 3-5 assignment recommendations with specific tasks, suggested team member roles, and reasoning."
    None;
  Prompt.mk_kwargs "newFeatures"
    "New Feature Suggestions"
    "Analyze the current functionality and suggest valuable new features. Consider:
1. User pain points that could be addressed
2. Market opportunities based on the tech stack
3. Integration possibilities with other tools
4. Performance and scalability improvements
5. User experience enhancements

Provide 3-5 feature suggestions with titles, descriptions, impact assessment (High/Medium/Low), and implementation complexity."
    None;
  Prompt.mk_kwargs "technicalDebt"
    "Technical Debt Analysis"
    "Identify technical debt and code quality issues. Look for:
1. Code duplication patterns
2. Outdated dependencies or patterns
3. Performance bottlenecks
4. Maintainability issues
5. Testing gaps

Provide 3-5 technical debt items with specific issues, descriptions, priority levels, and effort estimates."
    None;
  Prompt.mk_kwargs "performance"
    "Performance Optimization"
    "Analyze potential performance issues and optimization opportunities. Consider:
1. Database query optimization needs
2. Caching opportunities
3. Frontend performance improvements
4. API optimization potential
5. Resource usage optimization

Provide 3-5 performance recommendations with specific areas, descriptions, and optimization strategies."
    None
].

(** The body of [init_default_prompts], with its list of defaults as a
    parameter. *)
Definition init_prompts (default_prompts : list Prompt.kwargs) : Prog unit :=
  try_finally
    (try_except
       (count <- call QueryCount ;;
        if (0 <? count)%nat then Ret tt
        else
          for_each default_prompts (fun prompt_data => add prompt_data ;; Ret tt) ;;
          commit ;;
          call (Print "Default prompts initialized successfully!"))
       (fun e =>
          call (Print (String.append "Error initializing default prompts: " (exn_str e))) ;;
          call Rollback))
    (call Close).

(** [def init_default_prompts()] *)
Definition init_default_prompts : Prog unit := init_prompts default_prompts.

(** [async def startup_event()] *)
Definition startup_event : Prog unit := init_default_prompts.

(** ** API routes *)

Definition not_found : exn := HTTPException 404 "Prompt not found".

Definition message (text : string) : gmap string string :=
  {[ "message" := text ]}.

(** The loop of [get_prompts]: [prompt_dict[prompt.category] = {...}] for
    each row, starting from the dictionary [d]. *)
Definition prompt_dict (prompts : list Prompt.t) (d : gmap string entry)
    : gmap string entry :=
  fold_left
    (fun prompt_dict prompt =>
       <[Prompt.category prompt :=
           mk_entry (Prompt.title prompt) (Prompt.prompt prompt)]> prompt_dict)
    prompts d.

(** [GET /prompts] *)
Definition get_prompts : Prog (gmap string entry) :=
  prompts <- call QueryActive ;;
  Ret (prompt_dict prompts ∅).

(** [GET /prompts/all] *)
Definition get_all_prompts : Prog (list Prompt.t) :=
  call QueryAll.

(** [GET /prompts/{category}] *)
Definition get_prompt_by_category (category : string) : Prog Prompt.t :=
  found <- call (QueryFirst category) ;;
  match found with
  | None => Raise not_found
  | Some (_, prompt) => Ret prompt
  end.

(** [POST /prompts] *)
Definition create_prompt (prompt : PromptCreate.t) : Prog Prompt.t :=
  existing <- call (QueryFirst (PromptCreate.category prompt)) ;;
  match existing with
  | Some _ => Raise (HTTPException 400 "Category already exists")
  | None =>
      db_prompt <- add (PromptCreate.dict prompt) ;;
      commit ;;
      refresh db_prompt
  end.

(** [PUT /prompts/{category}] *)
Definition update_prompt (category : string) (prompt_update : PromptUpdate.t)
    : Prog Prompt.t :=
  found <- call (QueryFirst category) ;;
  match found with
  | None => Raise not_found
  | Some (prompt, _) =>
      for_each (update_data prompt_update) (fun a => call (SetAttr prompt a)) ;;
      now <- call Utcnow ;;
      call (SetAttr prompt (UpdatedAt now)) ;;
      commit ;;
      refresh prompt
  end.

(** [DELETE /prompts/{category}] *)
Definition delete_prompt (category : string) : Prog (gmap string string) :=
  found <- call (QueryFirst category) ;;
  match found with
  | None => Raise not_found
  | Some (prompt, _) =>
      call (SetAttr prompt (IsActive (Some false))) ;;
      now <- call Utcnow ;;
      call (SetAttr prompt (UpdatedAt now)) ;;
      commit ;;
      Ret (message "Prompt deactivated successfully")
  end.

(** [POST /prompts/{category}/activate] *)
Definition activate_prompt (category : string) : Prog (gmap string string) :=
  found <- call (QueryFirst category) ;;
  match found with
  | None => Raise not_found
  | Some (prompt, _) =>
      call (SetAttr prompt (IsActive (Some true))) ;;
      now <- call Utcnow ;;
      call (SetAttr prompt (UpdatedAt now)) ;;
      commit ;;
      Ret (message "Prompt activated successfully")
  end.

(** A request is served with a session of its own. *)
Definition serve {A} (handler : Prog A) (w : World) : outcome A * World :=
  let '(o, _, w') := run (get_db handler) [] w in (o, w').


(** The path parameter of a route: [{category}] matches a non-empty string
    with no slash. *)
Fixpoint no_slash (s : string) : bool :=
  match s with
  | EmptyString => true
  | String a rest => negb (Ascii.eqb a "/"%char) && no_slash rest
  end.

Definition segment (c : string) : bool :=
  negb (String.eqb c "") && no_slash c.

(** [GET /prompts/<c>] for a segment [c]: the route [/prompts/all] is
    registered before [/prompts/{category}], so [all] never reaches
    [get_prompt_by_category]. *)
Definition get_segment (c : string) (w : World)
    : (outcome (list Prompt.t) + outcome Prompt.t) * World :=
  if String.eqb c "all"
  then (inl (fst (serve get_all_prompts w)), snd (serve get_all_prompts w))
  else (inr (fst (serve (get_prompt_by_category c) w)),
        snd (serve (get_prompt_by_category c) w)).

(** The requests of the API and the status each is answered with; the
    category of a request to a route with a path parameter is that
    parameter, a segment. *)
Inductive request : Type :=
| GetPrompts
| GetAllPrompts
| GetPromptByCategory (category : string)
| CreatePrompt (prompt : PromptCreate.t)
| UpdatePrompt (category : string) (prompt_update : PromptUpdate.t)
| DeletePrompt (category : string)
| ActivatePrompt (category : string).

Definition answer {A} `{ResponseModel A} (r : outcome A * World) : Z * World :=
  (status_code (fst r), snd r).

Definition respond (r : request) (w : World) : Z * World :=
  match r with
  | GetPrompts => answer (serve get_prompts w)
  | GetAllPrompts => answer (serve get_all_prompts w)
  | GetPromptByCategory c =>
      match fst (get_segment c w) with
      | inl o => (status_code o, snd (get_segment c w))
      | inr o => (status_code o, snd (get_segment c w))
      end
  | CreatePrompt p => answer (serve (create_prompt p) w)
  | UpdatePrompt c u => answer (serve (update_prompt c u) w)
  | DeletePrompt c => answer (serve (delete_prompt c) w)
  | ActivatePrompt c => answer (serve (activate_prompt c) w)
  end.

(** What the database guarantees of the table: [id] is a primary key and
    [category] is UNIQUE. *)
Definition primary_key (t : list Prompt.t) : Prop := NoDup (map Prompt.id t).
Definition unique_category (t : list Prompt.t) : Prop := NoDup (map Prompt.category t).

(** The row a request leaves behind when it loaded [r], assigned [cur] and
    committed, with no other transaction in between: no statement is issued
    when nothing changed. *)
Definition committed (r cur : Prompt.t) (stamp : Z) : Prompt.t :=
  if unchanged r cur then r else update_row r cur stamp r.

(** A handler that loaded [r], assigned [cur0], stamped [updated_at] with a
    clock reading and committed: the row it leaves, and the world. *)
Definition touched (r cur0 : Prompt.t) (w : World) : Prompt.t :=
  committed r (Prompt.set_updated_at (utc w (reads w)) cur0) (utc w (S (reads w))).

Definition saved (r cur0 : Prompt.t) (w : World) : World :=
  let cur := Prompt.set_updated_at (utc w (reads w)) cur0 in
  let n := S (reads w) in
  mk_world
    (if unchanged r cur then table w
     else update_where_id r cur (utc w n) (table w))
    (utc w)
    (if unchanged r cur then n
     else if bool_decide (Prompt.updated_at r = Prompt.updated_at cur)
          then S n else n)
    (stdout w).

(** ** Example worlds *)

(** A clock that advances by one microsecond per reading, and one that
    stands still. *)
Definition ticking : nat -> Z := fun n => (1761955200000000 + Z.of_nat n)%Z.
Definition frozen : nat -> Z := fun _ => 1761955200000000%Z.

Definition fresh_world : World := mk_world [] ticking 0 [].

Definition seeded_world : World := snd (serve startup_event fresh_world).

(** A table with one record, of category [x], with the given flag and
    timestamps. *)
Definition single (flag : bool) (stamp : Z) : list Prompt.t :=
  [Prompt.mk 1 "x" (Some "T") (Some "P") (Some flag) stamp stamp].

(** Deactivate, then activate. *)
Definition off_then_on (c : string) (w : World) : World :=
  snd (serve (activate_prompt c) (snd (serve (delete_prompt c) w))).

(** The seeded world after one category has been deactivated. *)
Definition off_world (c : string) : World :=
  snd (serve (delete_prompt c) seeded_world).

(** What a concurrent [POST /prompts] for the category [performance] would
    have committed. *)
Definition performance_taken (t : list Prompt.t) : list Prompt.t :=
  t ++ [insert_row (Prompt.mk_kwargs "performance" "T" "P" None) t 0 0].

(** ** The remaining routes, and sequences of requests *)

(** [GET /] *)
Definition root : Prog (gmap string string) :=
  Ret (<["message" := "AI PM Prompt Management API"]> {[ "version" := "1.0.0" ]}).

(** The answer of [GET /health]: [{"status": .., "timestamp": ..}]. *)
Record health : Type := mk_health {
  health_status : string;
  health_timestamp : Z
}.

(** [GET /health] *)
Definition health_check : Prog health :=
  now <- call Utcnow ;;
  Ret (mk_health "healthy" now).

(** Requests served one after the other. *)
Fixpoint serve_all (reqs : list request) (w : World) : World :=
  match reqs with
  | [] => w
  | req :: rest => serve_all rest (snd (respond req w))
  end.

(** What identifies a record for good: the columns no handler assigns. *)
Definition identity (r : Prompt.t) : Z * string * Z :=
  (Prompt.id r, Prompt.category r, Prompt.created_at r).

(** [t'] still has every record of [t], in place, with the same identity;
    it may have more at the end. *)
Definition keeps (t t' : list Prompt.t) : Prop :=
  exists new, map identity t' = map identity t ++ new.

Definition keys (t : list Prompt.t) : Prop :=
  primary_key t /\ unique_category t.

(** A clock that never goes back, and a world whose records were stamped by
    readings already taken. *)
Definition monotone (clock : nat -> Z) : Prop :=
  forall n, (clock n <= clock (S n))%Z.

Definition timely (w : World) : Prop :=
  forall r, In r (table w) ->
    (Prompt.created_at r <= Prompt.updated_at r <= utc w (reads w))%Z.

(** The requests that only read. *)
Definition is_get (req : request) : bool :=
  match req with
  | GetPrompts | GetAllPrompts | GetPromptByCategory _ => true
  | _ => false
  end.

(** The seeded world after [PUT /prompts/roadmap] with the body
    [{"title": null}]. *)
Definition null_title_world : World :=
  serve_all [UpdatePrompt "roadmap" (PromptUpdate.mk (Some None) None None)] seeded_world.

(** * Properties *)

(** ** Running programs *)

Section Running.

Context {A B : Type}.

Lemma run_bind (p : Prog A) (f : A -> Prog B) s w :
  run (bind p f) s w =
  match run p s w with
  | (Returned a, s', w') => run (f a) s' w'
  | (Raised e, s', w') => (Raised e, s', w')
  end.
Proof.
  revert s w. induction p as [a|e|X op k IH]; intros s w; simpl; try reflexivity.
  destruct (exec op s w) as [[x s'] w']. apply IH.
Qed.

Lemma run_get_db (p : Prog A) s w :
  run (get_db p) s w = (fst (fst (run p s w)), [], snd (run p s w)).
Proof.
  unfold get_db. revert s w.
  induction p as [a|e|X op k IH]; intros s w; simpl; try reflexivity.
  destruct (exec op s w) as [[x s'] w']. apply IH.
Qed.

End Running.

Lemma pair_eta_fst {A B} (x : A * B) (a : A) : fst x = a -> x = (a, snd x).
Proof. intros <-. now destruct x. Qed.

Lemma serve_run {A} (p : Prog A) w :
  serve p w = (fst (fst (run p [] w)), snd (run p [] w)).
Proof. unfold serve. rewrite run_get_db. reflexivity. Qed.

Lemma run_for_each_setattr {A} (l : list assignment) (k : Prog A) r cur w :
  run (for_each l (fun a => call (SetAttr 0 a)) ;; k) [Persistent r cur] w =
  run k [Persistent r (fold_left (fun p a => setattr a p) l cur)] w.
Proof.
  revert cur. induction l as [|a l IH]; intros cur; simpl; [reflexivity|].
  rewrite <- IH. reflexivity.
Qed.

(** ** The table *)

Section Table.

Implicit Types (t : list Prompt.t) (r : Prompt.t) (c : string) (i : Z).

Lemma has_category_true c r : has_category c r = true <-> Prompt.category r = c.
Proof. unfold has_category. apply String.eqb_eq. Qed.

Lemma has_id_true i r : has_id i r = true <-> Prompt.id r = i.
Proof. unfold has_id. apply Z.eqb_eq. Qed.

Lemma stored_Some c t r : stored c t = Some r -> In r t /\ Prompt.category r = c.
Proof.
  unfold stored. intros H. apply find_some in H as [H1 H2].
  split; [exact H1|]. now apply has_category_true.
Qed.

Lemma stored_None c t : stored c t = None -> ~ In c (map Prompt.category t).
Proof.
  unfold stored. intros H Hin. apply in_map_iff in Hin as (r & Hc & Hr).
  apply (find_none _ _ H) in Hr. apply has_category_true in Hc. congruence.
Qed.

Lemma stored_None_existsb c t :
  stored c t = None -> existsb (has_category c) t = false.
Proof.
  unfold stored. induction t as [|r t IH]; simpl; [reflexivity|].
  destruct (has_category c r); [discriminate|]. exact IH.
Qed.

Lemma stored_Some_existsb c t r :
  stored c t = Some r -> existsb (has_category c) t = true.
Proof.
  intros H. apply stored_Some in H as [H1 H2]. apply existsb_exists.
  exists r. split; [exact H1|]. now apply has_category_true.
Qed.

Lemma stored_In t r :
  unique_category t -> In r t -> stored (Prompt.category r) t = Some r.
Proof.
  unfold unique_category, stored. induction t as [|x t IH]; simpl; [tauto|].
  intros Hnd [->|Hin].
  - unfold has_category. now rewrite String.eqb_refl.
  - apply NoDup_cons in Hnd as [Hx Hnd']. rewrite list_elem_of_In in Hx.
    destruct (has_category (Prompt.category r) x) eqn:E.
    + apply has_category_true in E. exfalso. apply Hx. rewrite E.
      now apply in_map.
    + now apply IH.
Qed.

Lemma max_id_bound t r :
  In r t -> (Prompt.id r <= fold_right Z.max 0 (map Prompt.id t))%Z.
Proof.
  induction t as [|x t IH]; simpl; [tauto|].
  intros [->|Hin]; [lia|]. specialize (IH Hin). lia.
Qed.

Lemma next_id_fresh t r : In r t -> (Prompt.id r < next_id t)%Z.
Proof. intros H. apply max_id_bound in H. unfold next_id. lia. Qed.

Lemma next_id_not_used t : ~ In (next_id t) (map Prompt.id t).
Proof.
  intros H. apply in_map_iff in H as (r & Hr & Hin).
  apply next_id_fresh in Hin. lia.
Qed.

Lemma row_of_id_next t : row_of_id (next_id t) t = None.
Proof.
  unfold row_of_id. destruct (find _ t) as [r|] eqn:E; [|reflexivity].
  apply find_some in E as [Hin Hid]. apply has_id_true in Hid.
  apply next_id_fresh in Hin. lia.
Qed.

Lemma row_of_id_In t r :
  primary_key t -> In r t -> row_of_id (Prompt.id r) t = Some r.
Proof.
  unfold primary_key, row_of_id. induction t as [|x t IH]; simpl; [tauto|].
  intros Hnd [->|Hin].
  - unfold has_id. now rewrite Z.eqb_refl.
  - apply NoDup_cons in Hnd as [Hx Hnd']. rewrite list_elem_of_In in Hx.
    destruct (has_id (Prompt.id r) x) eqn:E.
    + apply has_id_true in E. exfalso. apply Hx. rewrite E.
      now apply in_map.
    + now apply IH.
Qed.

End Table.

Section Update.

Implicit Types (t : list Prompt.t) (r : Prompt.t) (c : string) (i : Z).

Lemma find_map_stable {X} (P : X -> bool) (f : X -> X) (l : list X) :
  (forall x, P (f x) = P x) -> find P (map f l) = option_map f (find P l).
Proof.
  intros H. induction l as [|x l IH]; simpl; [reflexivity|].
  rewrite H. destruct (P x); [reflexivity|exact IH].
Qed.

Lemma primary_key_inj t a b :
  primary_key t -> In a t -> In b t -> Prompt.id a = Prompt.id b -> a = b.
Proof.
  intros Hpk Ha Hb Hid.
  pose proof (row_of_id_In t a Hpk Ha) as E1.
  pose proof (row_of_id_In t b Hpk Hb) as E2.
  rewrite Hid in E1. congruence.
Qed.

Lemma update_where_id_ids l cur st t :
  map Prompt.id (update_where_id l cur st t) = map Prompt.id t.
Proof.
  unfold update_where_id. rewrite map_map. apply map_ext.
  intros row. destruct (has_id _ row); reflexivity.
Qed.

Lemma update_where_id_categories l cur st t :
  map Prompt.category (update_where_id l cur st t) = map Prompt.category t.
Proof.
  unfold update_where_id. rewrite map_map. apply map_ext.
  intros row. destruct (has_id _ row); reflexivity.
Qed.

Lemma stored_update_same c t r cur st :
  stored c t = Some r ->
  stored c (update_where_id r cur st t) = Some (update_row r cur st r).
Proof.
  intros H. unfold stored, update_where_id. rewrite find_map_stable.
  - unfold stored in H. rewrite H. simpl. unfold has_id. now rewrite Z.eqb_refl.
  - intros row. destruct (has_id _ row); reflexivity.
Qed.

Lemma stored_update_other c c' t r cur st :
  primary_key t -> stored c t = Some r -> c' <> c ->
  stored c' (update_where_id r cur st t) = stored c' t.
Proof.
  intros Hpk H Hne. unfold stored, update_where_id. rewrite find_map_stable.
  - destruct (find (has_category c') t) as [row|] eqn:E; [|reflexivity].
    simpl. destruct (has_id (Prompt.id r) row) eqn:Hid; [|reflexivity].
    exfalso. apply stored_Some in E as [Hin Hc]. apply stored_Some in H as [Hr Hcr].
    apply has_id_true in Hid.
    assert (row = r) by (eapply primary_key_inj; eauto). congruence.
  - intros row. destruct (has_id _ row); reflexivity.
Qed.

Lemma row_of_id_update t r cur st :
  primary_key t -> In r t ->
  row_of_id (Prompt.id r) (update_where_id r cur st t) = Some (update_row r cur st r).
Proof.
  intros Hpk Hin. unfold row_of_id, update_where_id. rewrite find_map_stable.
  - fold (row_of_id (Prompt.id r) t). rewrite row_of_id_In by assumption.
    simpl. unfold has_id. now rewrite Z.eqb_refl.
  - intros row. destruct (has_id (Prompt.id r) row) eqn:E; exact E.
Qed.

End Update.

(** ** Requests that modify a stored record *)

Section Modify.

Implicit Types (t : list Prompt.t) (r cur : Prompt.t) (c : string) (w : World).

(** The common tail of [update_prompt], [delete_prompt] and
    [activate_prompt]: stamp [updated_at], commit, continue. *)
Lemma run_touch {A} (k : Prog A) r cur0 w :
  run (now <- call Utcnow ;; call (SetAttr 0 (UpdatedAt now)) ;; commit ;; k)
      [Persistent r cur0] w =
  run k [Persistent (Prompt.set_updated_at (utc w (reads w)) cur0)
                    (Prompt.set_updated_at (utc w (reads w)) cur0)]
    (saved r cur0 w).
Proof.
  unfold saved. simpl. destruct (unchanged r _); reflexivity.
Qed.

Lemma committed_stored c t r cur st :
  stored c t = Some r ->
  stored c (if unchanged r cur then t else update_where_id r cur st t) =
  Some (committed r cur st).
Proof.
  intros H. unfold committed. destruct (unchanged r cur); [exact H|].
  now apply stored_update_same.
Qed.

Lemma committed_others c c' t r cur st :
  primary_key t -> stored c t = Some r -> c' <> c ->
  stored c' (if unchanged r cur then t else update_where_id r cur st t) =
  stored c' t.
Proof.
  intros Hpk H Hne. destruct (unchanged r cur); [reflexivity|].
  now apply (stored_update_other c).
Qed.

Lemma committed_row_of_id t r cur st :
  primary_key t -> In r t -> Prompt.id cur = Prompt.id r ->
  row_of_id (Prompt.id cur)
    (if unchanged r cur then t else update_where_id r cur st t) =
  Some (committed r cur st).
Proof.
  intros Hpk Hin ->. unfold committed. destruct (unchanged r cur).
  - now apply row_of_id_In.
  - now apply row_of_id_update.
Qed.

Lemma committed_categories t r cur st :
  map Prompt.category (if unchanged r cur then t else update_where_id r cur st t) =
  map Prompt.category t.
Proof. destruct (unchanged r cur); [reflexivity|apply update_where_id_categories]. Qed.

Lemma committed_ids t r cur st :
  map Prompt.id (if unchanged r cur then t else update_where_id r cur st t) =
  map Prompt.id t.
Proof. destruct (unchanged r cur); [reflexivity|apply update_where_id_ids]. Qed.

(** The committed row is the assigned one, up to the [onupdate] hook. *)
Lemma committed_eq r cur st :
  Prompt.id cur = Prompt.id r ->
  Prompt.category cur = Prompt.category r ->
  Prompt.created_at cur = Prompt.created_at r ->
  committed r cur st =
  Prompt.set_updated_at
    (if unchanged r cur then Prompt.updated_at cur
     else if bool_decide (Prompt.updated_at r = Prompt.updated_at cur)
          then st else Prompt.updated_at cur)
    cur.
Proof.
  destruct r as [i c ti p a ca ua], cur as [i' c' ti' p' a' ca' ua'].
  simpl. intros -> -> ->.
  unfold committed, unchanged, update_row, Prompt.set_updated_at. simpl.
  repeat case_bool_decide; simpl; congruence.
Qed.

Lemma setattr_fold_frame (l : list assignment) r :
  let cur := fold_left (fun p a => setattr a p) l r in
  Prompt.id cur = Prompt.id r /\
  Prompt.category cur = Prompt.category r /\
  Prompt.created_at cur = Prompt.created_at r.
Proof.
  revert r. induction l as [|a l IH]; intros r; simpl; [tauto|].
  destruct (IH (setattr a r)) as (H1 & H2 & H3).
  rewrite H1, H2, H3. destruct a; simpl; tauto.
Qed.

Lemma update_data_fold (u : PromptUpdate.t) r :
  fold_left (fun p a => setattr a p) (update_data u) r =
  Prompt.mk (Prompt.id r) (Prompt.category r)
    (default (Prompt.title r) (PromptUpdate.title u))
    (default (Prompt.prompt r) (PromptUpdate.prompt u))
    (default (Prompt.is_active r) (PromptUpdate.is_active u))
    (Prompt.created_at r) (Prompt.updated_at r).
Proof.
  destruct u as [[ti|] [p|] [a|]], r; reflexivity.
Qed.

End Modify.

Section Saved.

Implicit Types (r cur : Prompt.t) (c : string) (w : World).

Lemma saved_stored c r cur w :
  stored c (table w) = Some r ->
  stored c (table (saved r cur w)) = Some (touched r cur w).
Proof. intros H. unfold saved, touched. simpl. now apply committed_stored. Qed.

Lemma saved_others c c' r cur w :
  primary_key (table w) -> stored c (table w) = Some r -> c' <> c ->
  stored c' (table (saved r cur w)) = stored c' (table w).
Proof. intros. unfold saved. simpl. now apply (committed_others c). Qed.

Lemma saved_row_of_id r cur w :
  primary_key (table w) -> In r (table w) -> Prompt.id cur = Prompt.id r ->
  row_of_id (Prompt.id cur) (table (saved r cur w)) = Some (touched r cur w).
Proof.
  intros Hpk Hin Hid. unfold saved, touched. simpl.
  now apply (committed_row_of_id _ _ (Prompt.set_updated_at _ cur)).
Qed.

Lemma saved_categories r cur w :
  map Prompt.category (table (saved r cur w)) = map Prompt.category (table w).
Proof. unfold saved. simpl. apply committed_categories. Qed.

Lemma saved_ids r cur w :
  map Prompt.id (table (saved r cur w)) = map Prompt.id (table w).
Proof. unfold saved. simpl. apply committed_ids. Qed.

Lemma saved_length r cur w :
  length (table (saved r cur w)) = length (table w).
Proof.
  rewrite <- (length_map Prompt.id), saved_ids. apply length_map.
Qed.

(** The stored fields are the assigned ones; [updated_at] is the handler's
    clock reading, or the hook's when the handler's reading equals the old
    value while another column changes. *)
Lemma touched_fields r cur w :
  Prompt.id cur = Prompt.id r ->
  Prompt.category cur = Prompt.category r ->
  Prompt.created_at cur = Prompt.created_at r ->
  let r' := touched r cur w in
  r' = Prompt.set_updated_at (Prompt.updated_at r') cur /\
  (Prompt.updated_at r' = utc w (reads w) \/
   Prompt.updated_at r = utc w (reads w) /\
   Prompt.updated_at r' = utc w (S (reads w))) /\
  (Prompt.updated_at r <> utc w (reads w) ->
   Prompt.updated_at r' = utc w (reads w)).
Proof.
  intros H1 H2 H3. unfold touched. rewrite committed_eq by assumption.
  cbn [Prompt.updated_at Prompt.set_updated_at].
  destruct (unchanged r _).
  - destruct cur; simpl; tauto.
  - case_bool_decide; destruct cur; simpl; tauto.
Qed.

Lemma touched_same r w :
  touched r r w = Prompt.set_updated_at (utc w (reads w)) r.
Proof.
  unfold touched, committed, unchanged, update_row, Prompt.set_updated_at.
  destruct r as [i c ti p a ca ua]. simpl.
  repeat case_bool_decide; simpl; congruence.
Qed.

End Saved.

(** ** The handlers, run on their own *)

Section Handlers.

Implicit Types (r : Prompt.t) (c : string) (w : World).

Lemma serve_absent_update c u w :
  stored c (table w) = None -> serve (update_prompt c u) w = (Raised not_found, w).
Proof.
  intros H. rewrite serve_run. unfold update_prompt. rewrite run_bind.
  cbn [run call exec]. rewrite H. reflexivity.
Qed.

Lemma serve_absent_delete c w :
  stored c (table w) = None -> serve (delete_prompt c) w = (Raised not_found, w).
Proof.
  intros H. rewrite serve_run. unfold delete_prompt. rewrite run_bind.
  cbn [run call exec]. rewrite H. reflexivity.
Qed.

Lemma serve_absent_activate c w :
  stored c (table w) = None -> serve (activate_prompt c) w = (Raised not_found, w).
Proof.
  intros H. rewrite serve_run. unfold activate_prompt. rewrite run_bind.
  cbn [run call exec]. rewrite H. reflexivity.
Qed.

Lemma serve_update c u w r :
  primary_key (table w) -> stored c (table w) = Some r ->
  let cur0 := fold_left (fun p a => setattr a p) (update_data u) r in
  serve (update_prompt c u) w = (Returned (touched r cur0 w), saved r cur0 w).
Proof.
  intros Hpk H cur0. rewrite serve_run. unfold update_prompt.
  rewrite run_bind. cbn [run call exec]. rewrite H. cbn [length app].
  rewrite run_for_each_setattr, run_touch. fold cur0.
  cbn [run refresh call bind exec lookup list_lookup].
  change (Prompt.id (Prompt.set_updated_at _ cur0)) with (Prompt.id cur0).
  rewrite saved_row_of_id.
  - reflexivity.
  - exact Hpk.
  - now apply stored_Some in H.
  - apply setattr_fold_frame.
Qed.

Lemma serve_delete c w r :
  stored c (table w) = Some r ->
  serve (delete_prompt c) w =
  (Returned (message "Prompt deactivated successfully"),
   saved r (Prompt.set_is_active (Some false) r) w).
Proof.
  intros H. rewrite serve_run. unfold delete_prompt.
  rewrite run_bind. cbn [run call exec]. rewrite H. cbn [length app].
  rewrite run_bind. cbn [run call exec set_obj lookup list_lookup].
  cbn [insert list_insert setattr]. rewrite run_touch. reflexivity.
Qed.

Lemma serve_activate c w r :
  stored c (table w) = Some r ->
  serve (activate_prompt c) w =
  (Returned (message "Prompt activated successfully"),
   saved r (Prompt.set_is_active (Some true) r) w).
Proof.
  intros H. rewrite serve_run. unfold activate_prompt.
  rewrite run_bind. cbn [run call exec]. rewrite H. cbn [length app].
  rewrite run_bind. cbn [run call exec set_obj lookup list_lookup].
  cbn [insert list_insert setattr]. rewrite run_touch. reflexivity.
Qed.

End Handlers.

Section Create.

Implicit Types (r : Prompt.t) (c : string) (w : World) (p : PromptCreate.t).

Lemma find_append {X} (P : X -> bool) (l l' : list X) :
  find P (l ++ l') = match find P l with Some x => Some x | None => find P l' end.
Proof.
  induction l as [|x l IH]; simpl; [reflexivity|].
  destruct (P x); [reflexivity|exact IH].
Qed.

Lemma row_of_id_inserted kw (t : list Prompt.t) (s1 s2 : Z) :
  row_of_id (next_id t) (t ++ [insert_row kw t s1 s2]) = Some (insert_row kw t s1 s2).
Proof.
  unfold row_of_id. rewrite find_append.
  fold (row_of_id (next_id t) t). rewrite row_of_id_next.
  simpl. unfold has_id. simpl. now rewrite Z.eqb_refl.
Qed.

Lemma serve_create_existing p w r :
  stored (PromptCreate.category p) (table w) = Some r ->
  serve (create_prompt p) w =
  (Raised (HTTPException 400 "Category already exists"), w).
Proof.
  intros H. rewrite serve_run. unfold create_prompt. rewrite run_bind.
  cbn [run call exec]. rewrite H. reflexivity.
Qed.

Lemma serve_create_new p w :
  stored (PromptCreate.category p) (table w) = None ->
  let row := insert_row (PromptCreate.dict p) (table w)
               (utc w (reads w)) (utc w (S (reads w))) in
  serve (create_prompt p) w =
  (Returned row,
   mk_world (table w ++ [row]) (utc w) (S (S (reads w))) (stdout w)).
Proof.
  intros H row. rewrite serve_run. unfold create_prompt. rewrite run_bind.
  cbn [run call exec]. rewrite H.
  cbn [run add call bind commit exec length app flush PromptCreate.dict
       Prompt.kw_category].
  rewrite (stored_None_existsb _ _ H).
  cbn [run refresh call bind exec lookup list_lookup with_reads with_table
       table utc reads stdout].
  change (Prompt.id (insert_row _ (table w) _ _)) with (next_id (table w)).
  rewrite row_of_id_inserted. reflexivity.
Qed.

End Create.

(** ** Keys *)

Lemma unique_category_append (t : list Prompt.t) (row : Prompt.t) :
  unique_category t -> stored (Prompt.category row) t = None ->
  unique_category (t ++ [row]).
Proof.
  unfold unique_category. intros Hnd Hnone. rewrite map_app. simpl.
  apply NoDup_app. split; [exact Hnd|]. split; [|apply NoDup_singleton].
  intros c Hc Hc'. apply list_elem_of_singleton in Hc'. subst c.
  apply list_elem_of_In in Hc. now apply stored_None in Hnone.
Qed.

Lemma primary_key_append (t : list Prompt.t) (row : Prompt.t) :
  primary_key t -> Prompt.id row = next_id t -> primary_key (t ++ [row]).
Proof.
  unfold primary_key. intros Hnd Hid. rewrite map_app. simpl.
  apply NoDup_app. split; [exact Hnd|]. split; [|apply NoDup_singleton].
  intros i Hi Hi'. apply list_elem_of_singleton in Hi'. subst i.
  apply list_elem_of_In in Hi. rewrite Hid in Hi. now apply next_id_not_used in Hi.
Qed.

(** ** Create *)

(** C1: a create whose category is already stored, under an active or an
    inactive record, is answered 400 "Category already exists" and leaves
    the world as it was; otherwise it returns the new row, which carries a
    fresh id, the request's fields and two clock readings, and the row is
    appended to the table.  Either way categories stay unique. *)
Theorem create_prompt_conflict_or_created (p : PromptCreate.t) (w : World) :
  unique_category (table w) ->
  (forall r, stored (PromptCreate.category p) (table w) = Some r ->
     serve (create_prompt p) w =
       (Raised (HTTPException 400 "Category already exists"), w) /\
     status_code (fst (serve (create_prompt p) w)) = 400%Z) /\
  (stored (PromptCreate.category p) (table w) = None ->
     exists row w',
       serve (create_prompt p) w = (Returned row, w') /\
       table w' = table w ++ [row] /\
       stored (PromptCreate.category p) (table w') = Some row /\
       ~ In (Prompt.id row) (map Prompt.id (table w)) /\
       Prompt.category row = PromptCreate.category p /\
       Prompt.title row = Some (PromptCreate.title p) /\
       Prompt.prompt row = Some (PromptCreate.prompt p) /\
       Prompt.is_active row = Some (PromptCreate.is_active p) /\
       Prompt.created_at row = utc w (reads w) /\
       Prompt.updated_at row = utc w (S (reads w))) /\
  unique_category (table (snd (serve (create_prompt p) w))).
Proof.
  intros Hu. split; [|split].
  - intros r H. rewrite (serve_create_existing p w r H). split; reflexivity.
  - intros H. rewrite (serve_create_new p w H). eexists _, _.
    split; [reflexivity|]. cbn [table].
    split; [reflexivity|]. split.
    + unfold stored. rewrite find_append. fold (stored (PromptCreate.category p) (table w)).
      rewrite H. simpl. unfold has_category. simpl. now rewrite String.eqb_refl.
    + split; [apply next_id_not_used|]. repeat split.
  - destruct (stored (PromptCreate.category p) (table w)) as [r|] eqn:H.
    + rewrite (serve_create_existing p w r H). exact Hu.
    + rewrite (serve_create_new p w H). cbn [snd table].
      apply unique_category_append; [exact Hu|exact H].
Qed.

Lemma create_prompt_conflict_or_created_witness :
  unique_category (table seeded_world) /\
  serve (create_prompt (PromptCreate.parse "roadmap" "T" "P" None)) seeded_world =
    (Raised (HTTPException 400 "Category already exists"), seeded_world) /\
  unique_category
    (table (snd (serve (create_prompt (PromptCreate.parse "x" "T" "P" None)) seeded_world))).
Proof.
  assert (H : unique_category (table seeded_world)).
  { apply (bool_decide_unpack _). vm_compute. reflexivity. }
  split; [exact H|].
  destruct (create_prompt_conflict_or_created
              (PromptCreate.parse "roadmap" "T" "P" None) seeded_world H) as [H1 _].
  destruct (create_prompt_conflict_or_created
              (PromptCreate.parse "x" "T" "P" None) seeded_world H) as (_ & _ & H2).
  split; [|exact H2].
  eapply H1. vm_compute. reflexivity.
Defined.

(** C7 (as the code has it): a successful create returns a row whose id was
    not in use, whose [is_active] is the request's flag, [True] when the
    request omits it, and whose [created_at] and [updated_at] are two
    successive clock readings, equal only if the clock did not advance
    between them. *)
Theorem create_prompt_returns (category title prompt : string) (flag : option bool)
    (w w' : World) (row : Prompt.t) :
  serve (create_prompt (PromptCreate.parse category title prompt flag)) w =
    (Returned row, w') ->
  Prompt.id row = next_id (table w) /\
  ~ In (Prompt.id row) (map Prompt.id (table w)) /\
  Prompt.is_active row = Some (default true flag) /\
  (flag = None -> Prompt.is_active row = Some true) /\
  Prompt.created_at row = utc w (reads w) /\
  Prompt.updated_at row = utc w (S (reads w)) /\
  (utc w (reads w) = utc w (S (reads w)) ->
   Prompt.created_at row = Prompt.updated_at row).
Proof.
  intros H.
  destruct (stored category (table w)) as [r|] eqn:E.
  - rewrite (serve_create_existing (PromptCreate.parse category title prompt flag) w r E) in H.
    discriminate.
  - rewrite (serve_create_new (PromptCreate.parse category title prompt flag) w E) in H.
    injection H as <- _.
    cbn. split; [reflexivity|]. split; [apply next_id_not_used|].
    split; [reflexivity|]. split; [now intros ->|]. tauto.
Qed.

Lemma create_prompt_returns_witness :
  exists row,
    serve (create_prompt (PromptCreate.parse "x" "T" "P" None)) seeded_world =
      (Returned row,
       snd (serve (create_prompt (PromptCreate.parse "x" "T" "P" None)) seeded_world)) /\
    Prompt.id row = next_id (table seeded_world) /\
    Prompt.is_active row = Some true.
Proof.
  eassert (H : serve (create_prompt (PromptCreate.parse "x" "T" "P" None)) seeded_world
               = (Returned _,
                  snd (serve (create_prompt (PromptCreate.parse "x" "T" "P" None))
                         seeded_world))).
  { apply pair_eta_fst. vm_compute. reflexivity. }
  eexists. split; [exact H|].
  destruct (create_prompt_returns _ _ _ _ _ _ _ H) as (H1 & _ & H3 & _).
  split; [exact H1|exact H3].
Defined.

(** C7, counterexample: with a clock that advances between two readings the
    created row has [created_at] different from [updated_at]. *)
Lemma create_prompt_timestamps_differ :
  exists row,
    fst (serve (create_prompt (PromptCreate.parse "x" "T" "P" None)) fresh_world) =
      Returned row /\
    Prompt.created_at row <> Prompt.updated_at row.
Proof.
  eexists. split; [vm_compute; reflexivity|]. vm_compute. discriminate.
Qed.

(** ** Update *)

(** C2: an update of a stored category returns and stores a record in
    which [title], [prompt] and [is_active] have the supplied value when the
    request sets them and the old value otherwise; [id], [category] and
    [created_at] are the old ones; [updated_at] is a clock reading taken
    during the call, also when the request sets nothing; the categories of
    the table are the same as before and every other category's record is
    untouched.  An update of an absent category is answered 404 and changes
    nothing. *)
Theorem update_prompt_partial (c : string) (u : PromptUpdate.t) (w : World) :
  primary_key (table w) ->
  (stored c (table w) = None ->
     serve (update_prompt c u) w = (Raised (HTTPException 404 "Prompt not found"), w)) /\
  (forall r, stored c (table w) = Some r ->
     exists r' w',
       serve (update_prompt c u) w = (Returned r', w') /\
       stored c (table w') = Some r' /\
       Prompt.title r' = default (Prompt.title r) (PromptUpdate.title u) /\
       Prompt.prompt r' = default (Prompt.prompt r) (PromptUpdate.prompt u) /\
       Prompt.is_active r' = default (Prompt.is_active r) (PromptUpdate.is_active u) /\
       Prompt.id r' = Prompt.id r /\
       Prompt.category r' = Prompt.category r /\
       Prompt.created_at r' = Prompt.created_at r /\
       (Prompt.updated_at r' = utc w (reads w) \/
        Prompt.updated_at r = utc w (reads w) /\
        Prompt.updated_at r' = utc w (S (reads w))) /\
       (Prompt.updated_at r <> utc w (reads w) ->
        Prompt.updated_at r' = utc w (reads w)) /\
       map Prompt.category (table w') = map Prompt.category (table w) /\
       (forall c', c' <> c -> stored c' (table w') = stored c' (table w))).
Proof.
  intros Hpk. split; [apply serve_absent_update|].
  intros r H. rewrite (serve_update c u w r Hpk H). eexists _, _.
  split; [reflexivity|].
  split; [now apply saved_stored|].
  set (cur := fold_left _ _ r).
  destruct (setattr_fold_frame (update_data u) r) as (Hid & Hcat & Hcr).
  fold cur in Hid, Hcat, Hcr.
  destruct (touched_fields r cur w Hid Hcat Hcr) as (Heq & Hstamp & Hne).
  assert (Hcur : cur = _) by apply update_data_fold.
  rewrite Heq. cbn [Prompt.set_updated_at Prompt.title Prompt.prompt Prompt.is_active
                    Prompt.id Prompt.category Prompt.created_at Prompt.updated_at].
  rewrite Hid, Hcat, Hcr.
  split; [now rewrite Hcur|]. split; [now rewrite Hcur|]. split; [now rewrite Hcur|].
  split; [reflexivity|]. split; [reflexivity|]. split; [reflexivity|].
  split; [exact Hstamp|]. split; [exact Hne|].
  split; [apply saved_categories|].
  intros c' Hc'. now apply (saved_others c).
Qed.

Lemma update_prompt_partial_witness :
  primary_key (table seeded_world) /\
  exists r', 
    fst (serve (update_prompt "roadmap" (PromptUpdate.mk (Some (Some "T2")) None None))
           seeded_world) = Returned r' /\
    Prompt.title r' = Some "T2" /\
    Prompt.prompt r' = Prompt.prompt (nth 0 (table seeded_world) r') /\
    Prompt.category r' = "roadmap".
Proof.
  assert (Hpk : primary_key (table seeded_world)).
  { apply (bool_decide_unpack _). vm_compute. reflexivity. }
  split; [exact Hpk|].
  destruct (update_prompt_partial "roadmap" (PromptUpdate.mk (Some (Some "T2")) None None)
              seeded_world Hpk) as [_ H].
  eassert (Hs : stored "roadmap" (table seeded_world) = Some _) by (vm_compute; reflexivity).
  destruct (H _ Hs) as (r' & w' & E & _ & Ht & Hp & _ & _ & Hc & _).
  exists r'. rewrite E. split; [reflexivity|]. split; [exact Ht|].
  split; [rewrite Hp; reflexivity|rewrite Hc; reflexivity].
Defined.

(** ** Deactivate and activate *)

Section Toggle.

Implicit Types (r : Prompt.t) (c : string) (w : World) (flag : bool).

Lemma toggle_same r flag :
  Prompt.is_active r = Some flag -> Prompt.set_is_active (Some flag) r = r.
Proof. destruct r. simpl. now intros ->. Qed.

Lemma touched_toggle r flag w :
  let r' := touched r (Prompt.set_is_active (Some flag) r) w in
  r' = Prompt.set_updated_at (Prompt.updated_at r') (Prompt.set_is_active (Some flag) r) /\
  (Prompt.updated_at r <> utc w (reads w) -> Prompt.updated_at r' = utc w (reads w)).
Proof.
  destruct (touched_fields r (Prompt.set_is_active (Some flag) r) w)
    as (H1 & _ & H3); try reflexivity.
  split; assumption.
Qed.

Lemma saved_reads r cur w :
  Prompt.updated_at r <> utc w (reads w) -> reads (saved r cur w) = S (reads w).
Proof.
  intros H. unfold saved. cbn [reads Prompt.updated_at Prompt.set_updated_at].
  destruct (unchanged r _); [reflexivity|].
  case_bool_decide; [|reflexivity]. destruct cur; simpl in *; congruence.
Qed.

Lemma saved_utc r cur w : utc (saved r cur w) = utc w.
Proof. reflexivity. Qed.

End Toggle.

(** C8: deactivating a record that is already inactive, and activating one
    that is already active, succeed and leave every field but [updated_at]
    as it was, [updated_at] becoming the clock reading of the call; both are
    answered 404, with nothing changed, when the category is absent. *)
Theorem toggle_idempotent (c : string) (w : World) :
  (stored c (table w) = None ->
     serve (delete_prompt c) w = (Raised (HTTPException 404 "Prompt not found"), w) /\
     serve (activate_prompt c) w = (Raised (HTTPException 404 "Prompt not found"), w)) /\
  (forall r, stored c (table w) = Some r -> Prompt.is_active r = Some false ->
     exists w',
       serve (delete_prompt c) w =
         (Returned (message "Prompt deactivated successfully"), w') /\
       stored c (table w') = Some (Prompt.set_updated_at (utc w (reads w)) r)) /\
  (forall r, stored c (table w) = Some r -> Prompt.is_active r = Some true ->
     exists w',
       serve (activate_prompt c) w =
         (Returned (message "Prompt activated successfully"), w') /\
       stored c (table w') = Some (Prompt.set_updated_at (utc w (reads w)) r)).
Proof.
  split; [|split].
  - intros H. split; [now apply serve_absent_delete|now apply serve_absent_activate].
  - intros r H Hoff. rewrite (serve_delete c w r H). eexists. split; [reflexivity|].
    rewrite (saved_stored c r _ w H), (toggle_same r false Hoff).
    now rewrite touched_same.
  - intros r H Hon. rewrite (serve_activate c w r H). eexists. split; [reflexivity|].
    rewrite (saved_stored c r _ w H), (toggle_same r true Hon).
    now rewrite touched_same.
Qed.

Lemma toggle_idempotent_witness :
  exists w',
    serve (activate_prompt "roadmap") seeded_world =
      (Returned (message "Prompt activated successfully"), w') /\
    Prompt.is_active <$> stored "roadmap" (table w') = Some (Some true).
Proof.
  destruct (toggle_idempotent "roadmap" seeded_world) as (_ & _ & H).
  eassert (Hs : stored "roadmap" (table seeded_world) = Some _) by (vm_compute; reflexivity).
  destruct (H _ Hs eq_refl) as (w' & E & Hw').
  exists w'. split; [exact E|]. rewrite Hw'. reflexivity.
Defined.




(** ** Failing requests *)

Section Failing.

Implicit Types (r : Prompt.t) (c : string) (w : World).

Lemma serve_get_by_category c w :
  serve (get_prompt_by_category c) w =
  (match stored c (table w) with
   | Some r => Returned r
   | None => Raised not_found
   end, w).
Proof.
  rewrite serve_run. unfold get_prompt_by_category. rewrite run_bind.
  cbn [run call exec]. destruct (stored c (table w)); reflexivity.
Qed.

Lemma get_segment_world c w : snd (get_segment c w) = w.
Proof.
  unfold get_segment. destruct (String.eqb c "all"); cbn [snd]; [reflexivity|].
  now rewrite serve_get_by_category.
Qed.

Lemma respond_get_world c w : snd (respond (GetPromptByCategory c) w) = w.
Proof.
  unfold respond. pose proof (get_segment_world c w) as H.
  destruct (fst (get_segment c w)); exact H.
Qed.

(** Without assuming anything of the table, a found record is never
    answered 404 or 400 by [update_prompt]. *)
Lemma serve_update_status c u w r :
  stored c (table w) = Some r ->
  status_code (fst (serve (update_prompt c u) w)) = 200%Z \/
  status_code (fst (serve (update_prompt c u) w)) = 500%Z.
Proof.
  intros H. rewrite serve_run. unfold update_prompt.
  rewrite run_bind. cbn [run call exec]. rewrite H. cbn [length app].
  rewrite run_for_each_setattr, run_touch.
  cbn [run refresh call bind exec lookup list_lookup].
  destruct (row_of_id _ _) as [row|]; cbn; [destruct (validate row)|]; auto.
Qed.

End Failing.

(** C10: a request answered 404 or 400 leaves the world, and so the stored
    records, exactly as they were. *)
Theorem failed_request_changes_nothing (req : request) (w : World) :
  fst (respond req w) = 404%Z \/ fst (respond req w) = 400%Z ->
  snd (respond req w) = w /\ table (snd (respond req w)) = table w.
Proof.
  intros H. cut (snd (respond req w) = w); [intros ->; now split|].
  destruct req as [| |c|p|c u|c|c]; unfold respond, answer in *; cbn [fst snd] in *.
  - reflexivity.
  - reflexivity.
  - apply (respond_get_world c w).
  - destruct (stored (PromptCreate.category p) (table w)) as [r|] eqn:E.
    + now rewrite (serve_create_existing p w r E).
    + rewrite (serve_create_new p w E) in H. cbn in H. destruct H; discriminate.
  - destruct (stored c (table w)) as [r|] eqn:E.
    + destruct (serve_update_status c u w r E) as [E'|E'];
        rewrite E' in H; destruct H; discriminate.
    + now rewrite (serve_absent_update c u w E).
  - destruct (stored c (table w)) as [r|] eqn:E.
    + rewrite (serve_delete c w r E) in H. cbn in H. destruct H; discriminate.
    + now rewrite (serve_absent_delete c w E).
  - destruct (stored c (table w)) as [r|] eqn:E.
    + rewrite (serve_activate c w r E) in H. cbn in H. destruct H; discriminate.
    + now rewrite (serve_absent_activate c w E).
Qed.

Lemma failed_request_changes_nothing_witness :
  fst (respond (DeletePrompt "absent") seeded_world) = 404%Z /\
  fst (respond (CreatePrompt (PromptCreate.parse "roadmap" "T" "P" None)) seeded_world)
    = 400%Z /\
  snd (respond (DeletePrompt "absent") seeded_world) = seeded_world /\
  snd (respond (CreatePrompt (PromptCreate.parse "roadmap" "T" "P" None)) seeded_world)
    = seeded_world.
Proof.
  assert (H1 : fst (respond (DeletePrompt "absent") seeded_world) = 404%Z)
    by (vm_compute; reflexivity).
  assert (H2 : fst (respond (CreatePrompt (PromptCreate.parse "roadmap" "T" "P" None))
                      seeded_world) = 400%Z)
    by (vm_compute; reflexivity).
  split; [exact H1|]. split; [exact H2|]. split.
  - apply (failed_request_changes_nothing (DeletePrompt "absent") seeded_world).
    left. exact H1.
  - apply (failed_request_changes_nothing
             (CreatePrompt (PromptCreate.parse "roadmap" "T" "P" None)) seeded_world).
    right. exact H2.
Defined.

(** ** Listing *)

Section Listing.

Implicit Types (r : Prompt.t) (c : string) (l t : list Prompt.t)
  (d : gmap string entry) (e : entry).

Lemma active_true r : active r = true <-> Prompt.is_active r = Some true.
Proof.
  unfold active. destruct (Prompt.is_active r) as [[|]|]; split; congruence.
Qed.

Lemma prompt_dict_fresh l d c :
  ~ In c (map Prompt.category l) -> prompt_dict l d !! c = d !! c.
Proof.
  unfold prompt_dict. revert d. induction l as [|x l IH]; intros d Hc; simpl in *.
  - reflexivity.
  - rewrite IH by tauto. apply lookup_insert_ne. tauto.
Qed.

Lemma prompt_dict_Some l d c e :
  prompt_dict l d !! c = Some e ->
  (exists r, In r l /\ Prompt.category r = c /\
             e = mk_entry (Prompt.title r) (Prompt.prompt r)) \/
  d !! c = Some e.
Proof.
  unfold prompt_dict. revert d. induction l as [|x l IH]; intros d H; simpl in *.
  - now right.
  - apply IH in H as [(r & Hin & Hc & He)|H].
    + left. exists r. tauto.
    + apply lookup_insert_Some in H as [[Hc He]|[_ H]].
      * left. exists x. split; [now left|]. split; [exact Hc|now rewrite He].
      * now right.
Qed.

Lemma prompt_dict_In l d r :
  NoDup (map Prompt.category l) -> In r l ->
  prompt_dict l d !! Prompt.category r =
  Some (mk_entry (Prompt.title r) (Prompt.prompt r)).
Proof.
  revert d. induction l as [|x l IH]; intros d Hnd Hin; simpl in *; [tauto|].
  apply NoDup_cons in Hnd as [Hx Hnd]. rewrite list_elem_of_In in Hx.
  destruct Hin as [->|Hin].
  - change (prompt_dict (r :: l) d) with
      (prompt_dict l (<[Prompt.category r :=
                          mk_entry (Prompt.title r) (Prompt.prompt r)]> d)).
    rewrite prompt_dict_fresh by exact Hx. apply lookup_insert_eq.
  - now apply IH.
Qed.

Lemma unique_category_filter (f : Prompt.t -> bool) t :
  unique_category t -> unique_category (List.filter f t).
Proof.
  unfold unique_category. induction t as [|x t IH]; simpl; [tauto|].
  intros Hnd. apply NoDup_cons in Hnd as [Hx Hnd]. rewrite list_elem_of_In in Hx.
  destruct (f x); [|now apply IH]. simpl. apply NoDup_cons. split; [|now apply IH].
  rewrite list_elem_of_In. intros Hin. apply Hx.
  apply in_map_iff in Hin as (y & Hy & Hin). apply filter_In in Hin as [Hin _].
  rewrite <- Hy. now apply in_map.
Qed.

Lemma unique_category_inj t a b :
  unique_category t -> In a t -> In b t ->
  Prompt.category a = Prompt.category b -> a = b.
Proof.
  intros Hu Ha Hb Hc.
  pose proof (stored_In t a Hu Ha) as E1.
  pose proof (stored_In t b Hu Hb) as E2.
  rewrite Hc in E1. congruence.
Qed.

Lemma serve_get_prompts w :
  serve get_prompts w = (Returned (prompt_dict (List.filter active (table w)) ∅), w).
Proof. reflexivity. Qed.

Lemma serve_get_all_prompts w :
  serve get_all_prompts w = (Returned (table w), w).
Proof. reflexivity. Qed.

End Listing.

(** C4, failing input: on the seeded store, after [PUT /prompts/roadmap]
    with [{"title": null}] the table still has its six records and
    [get_all_prompts] returns them all, but the record without a title fails
    the route's [List[PromptResponse]] model: [GET /prompts/all] is answered
    500 and sends no record, while [GET /prompts] still serves the record,
    with its null title. *)
Theorem list_all_fails_on_null_title :
  length (table null_title_world) = 6 /\
  fst (serve get_all_prompts null_title_world) = Returned (table null_title_world) /\
  fst (respond GetAllPrompts null_title_world) = 500%Z /\
  sent (fst (serve get_all_prompts null_title_world)) = None /\
  exists d,
    fst (serve get_prompts null_title_world) = Returned d /\
    entry_title <$> d !! "roadmap" = Some None.
Proof.
  split; [vm_compute; reflexivity|]. split; [reflexivity|].
  split; [vm_compute; reflexivity|]. split; [vm_compute; reflexivity|].
  eexists. split; [reflexivity|]. vm_compute. reflexivity.
Qed.

(** X17: [GET /prompts] is answered 200 with a dictionary whose entries are
    exactly the stored records with [is_active = True], each under its
    category with its title and prompt, so no record with a false flag is in
    it; [get_all_prompts] returns the whole table, which [GET /prompts/all]
    sends with status 200 when every record has a title, a prompt and a
    flag, and answers with 500 and no record otherwise. *)
Theorem listing_routes (w : World) :
  unique_category (table w) ->
  exists d,
    serve get_prompts w = (Returned d, w) /\
    fst (respond GetPrompts w) = 200%Z /\
    sent (fst (serve get_prompts w)) = Some d /\
    (forall c e,
       d !! c = Some e <->
       exists r, In r (table w) /\ Prompt.is_active r = Some true /\
                 Prompt.category r = c /\
                 e = mk_entry (Prompt.title r) (Prompt.prompt r)) /\
    (forall r, In r (table w) -> Prompt.is_active r = Some false ->
               d !! Prompt.category r = None) /\
    serve get_all_prompts w = (Returned (table w), w) /\
    (forallb validate (table w) = true ->
       fst (respond GetAllPrompts w) = 200%Z /\
       sent (fst (serve get_all_prompts w)) = Some (table w)) /\
    (forallb validate (table w) = false ->
       fst (respond GetAllPrompts w) = 500%Z /\
       sent (fst (serve get_all_prompts w)) = None).
Proof.
  intros Hu. eexists. split; [apply serve_get_prompts|].
  split; [reflexivity|]. split; [reflexivity|].
  assert (Hiff : forall c e,
    prompt_dict (List.filter active (table w)) ∅ !! c = Some e <->
    exists r, In r (table w) /\ Prompt.is_active r = Some true /\
              Prompt.category r = c /\
              e = mk_entry (Prompt.title r) (Prompt.prompt r)).
  { intros c e. split.
    - intros H. apply prompt_dict_Some in H as [(r & Hin & Hc & He)|H].
      + apply filter_In in Hin as [Hin Ha]. apply active_true in Ha.
        exists r. tauto.
      + rewrite lookup_empty in H. discriminate.
    - intros (r & Hin & Ha & <- & ->). apply prompt_dict_In.
      + now apply unique_category_filter.
      + apply filter_In. split; [exact Hin|now apply active_true]. }
  split; [exact Hiff|]. split.
  { intros r Hin Hoff.
    destruct (prompt_dict _ _ !! Prompt.category r) as [e|] eqn:E; [|reflexivity].
    apply Hiff in E as (r' & Hin' & Ha & Hc & _).
    assert (r' = r) by (eapply unique_category_inj; eauto). subst r'. congruence. }
  split; [apply serve_get_all_prompts|].
  unfold respond, answer. rewrite serve_get_all_prompts. cbn [fst snd status_code sent].
  change (validate (table w)) with (forallb validate (table w)).
  split; intros ->; split; reflexivity.
Qed.

Lemma listing_routes_witness :
  unique_category (table (off_world "roadmap")) /\
  exists d,
    fst (serve get_prompts (off_world "roadmap")) = Returned d /\
    d !! "roadmap" = None /\
    d !! "performance" =
      Some (mk_entry (Some "Performance Optimization")
              (Prompt.prompt (nth 5 (table seeded_world) (Prompt.mk 0 "" None None None 0 0)))) /\
    fst (respond GetAllPrompts (off_world "roadmap")) = 200%Z /\
    sent (fst (serve get_all_prompts (off_world "roadmap"))) =
      Some (table (off_world "roadmap")).
Proof.
  assert (Hu : unique_category (table (off_world "roadmap"))).
  { apply (bool_decide_unpack _). vm_compute. reflexivity. }
  split; [exact Hu|].
  destruct (listing_routes (off_world "roadmap") Hu)
    as (d & E & _ & _ & Hiff & Hoff & _ & Hall & _).
  exists d. rewrite E. split; [reflexivity|]. split; [|split].
  - apply (Hoff (nth 0 (table (off_world "roadmap")) (Prompt.mk 0 "" None None None 0 0))).
    + vm_compute. left. reflexivity.
    + vm_compute. reflexivity.
  - apply Hiff.
    exists (nth 5 (table (off_world "roadmap")) (Prompt.mk 0 "" None None None 0 0)).
    split; [vm_compute; do 5 right; left; reflexivity|].
    repeat split; vm_compute; reflexivity.
  - apply Hall. vm_compute. reflexivity.
Defined.

(** ** Seeding *)

(** C3: on a table with no record the startup seeding inserts six records,
    with ids 1 to 6 and the categories roadmap, vulnerabilities,
    teamAssignments, newFeatures, technicalDebt and performance, in that
    order; on a table with at least one record it changes nothing. *)
Theorem startup_seeds_empty_store (w : World) :
  (table w = [] ->
     exists w',
       serve startup_event w = (Returned tt, w') /\
       map Prompt.category (table w') =
         ["roadmap"; "vulnerabilities"; "teamAssignments"; "newFeatures";
          "technicalDebt"; "performance"] /\
       map Prompt.id (table w') = [1; 2; 3; 4; 5; 6]%Z /\
       length (table w') = 6) /\
  (table w <> [] -> serve startup_event w = (Returned tt, w)).
Proof.
  destruct w as [t clock n out]. cbn [table]. split.
  - intros ->. eexists. split; [vm_compute; reflexivity|].
    repeat split; vm_compute; reflexivity.
  - intros H. destruct t as [|x t]; [contradiction|]. reflexivity.
Qed.

Lemma startup_seeds_empty_store_witness :
  (exists w',
     serve startup_event fresh_world = (Returned tt, w') /\
     length (table w') = 6) /\
  serve startup_event seeded_world = (Returned tt, seeded_world).
Proof.
  destruct (startup_seeds_empty_store fresh_world) as [H _].
  destruct (startup_seeds_empty_store seeded_world) as [_ H'].
  split.
  - destruct (H eq_refl) as (w' & E & _ & _ & Hlen). exists w'. split; assumption.
  - apply H'. vm_compute. discriminate.
Defined.

(** ** Transactions among others *)

Section Among.

Implicit Types (t : list Prompt.t) (kws : list Prompt.kwargs) (clock : nat -> Z).

(** An INSERT can only fail on the UNIQUE index. *)
Lemma flush_pending_error kws t clock n e n' :
  flush (map Pending kws) t clock n = inl (e, n') -> e = unique_violation.
Proof.
  revert t n. induction kws as [|kw kws IH]; intros t n; simpl; [discriminate|].
  destruct (existsb _ t); [now intros [= <- _]|].
  destruct (flush (map Pending kws) _ clock _) as [[e0 n0]|[[? ?] ?]] eqn:E;
    [|discriminate].
  intros [= -> ->]. now apply IH in E.
Qed.

(** It does fail as soon as one of the categories is taken. *)
Lemma flush_pending_conflict kws t clock n :
  (exists kw, In kw kws /\ existsb (has_category (Prompt.kw_category kw)) t = true) ->
  exists n', flush (map Pending kws) t clock n = inl (unique_violation, n').
Proof.
  revert t n. induction kws as [|kw kws IH]; intros t n (kw' & Hin & Hex); simpl in *.
  - contradiction.
  - destruct (existsb (has_category (Prompt.kw_category kw)) t) eqn:E; [eauto|].
    destruct Hin as [->|Hin]; [congruence|].
    destruct (IH (t ++ [insert_row kw t (clock n) (clock (S n))]) (S (S n)))
      as [n' ->]; [|eauto].
    exists kw'. split; [exact Hin|]. rewrite existsb_app, Hex. reflexivity.
Qed.

Lemma run_among_bind {A B} others (p : Prog A) (f : A -> Prog B) s w :
  run_among others (bind p f) s w =
  match run_among others p s w with
  | (Returned a, s', w') => run_among others (f a) s' w'
  | (Raised e, s', w') => (Raised e, s', w')
  end.
Proof.
  revert s w. induction p as [a|e|X op k IH]; intros s w; simpl; try reflexivity.
  destruct (exec op s _) as [[x s'] w']. apply IH.
Qed.

Lemma run_among_try_except {A} others (p : Prog A) (h : exn -> Prog A) s w :
  run_among others (try_except p h) s w =
  match run_among others p s w with
  | (Returned a, s', w') => (Returned a, s', w')
  | (Raised e, s', w') => run_among others (h e) s' w'
  end.
Proof.
  revert s w. induction p as [a|e|X op k IH]; intros s w; simpl; try reflexivity.
  destruct (exec op s _) as [[x s'] w']. apply IH.
Qed.

Lemma run_among_close {A} others (p : Prog A) s w :
  run_among others (try_finally p (call Close)) s w =
  (fst (fst (run_among others p s w)), [], snd (run_among others p s w)).
Proof.
  revert s w. induction p as [a|e|X op k IH]; intros s w; simpl; try reflexivity.
  destruct (exec op s _) as [[x s'] w']. apply IH.
Qed.

Lemma run_among_adds others kws (s : Session) w :
  run_among others (for_each kws (fun prompt_data => add prompt_data ;; Ret tt)) s w =
  (Returned tt, s ++ map Pending kws, w).
Proof.
  revert s. induction kws as [|kw kws IH]; intros s; simpl.
  - now rewrite app_nil_r.
  - rewrite IH, <- app_assoc. reflexivity.
Qed.

End Among.

(** C9: when an insert of the seeding transaction fails, here because
    another transaction has taken one of the categories since the table was
    counted empty, [init_default_prompts] returns normally, the error is
    printed, and the table is the one the others left: none of the seed
    rows is in it, also not those inserted before the failing one. *)
Theorem seeding_failure_rolls_back (others : list Prompt.t -> list Prompt.t)
    (w : World) (e : exn) (n : nat) :
  table w = [] ->
  flush (map Pending default_prompts) (others []) (utc w) (reads w) = inl (e, n) ->
  run_among others startup_event [] w =
  (Returned tt, [],
   mk_world (others []) (utc w) n
     (stdout w ++ [String.append "Error initializing default prompts: " (exn_str e)])).
Proof.
  unfold startup_event, init_default_prompts. revert e n.
  generalize default_prompts as kws.
  destruct w as [t clock m out]. cbn [table utc reads stdout]. intros kws e n -> H.
  unfold init_prompts. rewrite run_among_close, run_among_try_except.
  rewrite run_among_bind. cbn [run_among call exec table length Nat.ltb Nat.leb].
  rewrite run_among_bind, run_among_adds. cbn [app].
  rewrite run_among_bind. unfold commit. rewrite run_among_bind.
  cbn [run_among call exec table utc reads stdout with_table].
  rewrite H. reflexivity.
Qed.

Lemma seeding_failure_rolls_back_witness :
  exists n,
    flush (map Pending default_prompts) (performance_taken []) ticking 0 =
      inl (unique_violation, n) /\
    run_among performance_taken startup_event [] fresh_world =
    (Returned tt, [],
     mk_world (performance_taken []) ticking n
       ["Error initializing default prompts: UNIQUE constraint failed: prompts.category"]).
Proof.
  eassert (H : flush (map Pending default_prompts) (performance_taken []) ticking 0 =
               inl (unique_violation, _)) by (vm_compute; reflexivity).
  eexists. split; [exact H|].
  exact (seeding_failure_rolls_back performance_taken fresh_world _ _ eq_refl H).
Defined.

(** C6 (as the code has it): when the insert of a create fails on the UNIQUE
    index, because another transaction has taken the category since the
    existence check, the [IntegrityError] leaves the handler as it is: the
    request is answered 500, not 400, and adds no record. *)
Theorem create_race_integrity_error (others : list Prompt.t -> list Prompt.t)
    (p : PromptCreate.t) (w : World) (e : exn) (n : nat) :
  stored (PromptCreate.category p) (table w) = None ->
  flush [Pending (PromptCreate.dict p)] (others (table w)) (utc w) (reads w) = inl (e, n) ->
  run_among others (get_db (create_prompt p)) [] w =
    (Raised e, [], mk_world (others (table w)) (utc w) n (stdout w)) /\
  e = unique_violation /\
  status_code (@Raised Prompt.t e) = 500%Z.
Proof.
  intros Hnone H.
  assert (He : e = unique_violation) by (apply (flush_pending_error [_] _ _ _ _ _ H)).
  split; [|split; [exact He|now rewrite He]].
  destruct w as [t clock m out]. cbn [table utc reads stdout] in *.
  unfold get_db, create_prompt. rewrite run_among_close, run_among_bind.
  cbn [run_among call exec table]. rewrite Hnone.
  unfold add. rewrite run_among_bind. cbn [run_among call exec length app].
  unfold commit. rewrite !run_among_bind.
  cbn [run_among call exec table utc reads stdout with_table].
  rewrite H. reflexivity.
Qed.

Lemma create_race_integrity_error_witness :
  exists n,
    run_among performance_taken
      (get_db (create_prompt (PromptCreate.parse "performance" "T2" "P2" None)))
      [] fresh_world =
    (Raised unique_violation, [], mk_world (performance_taken []) ticking n []) /\
    status_code (@Raised Prompt.t unique_violation) = 500%Z.
Proof.
  eassert (H : flush [Pending (PromptCreate.dict
                                 (PromptCreate.parse "performance" "T2" "P2" None))]
                 (performance_taken (table fresh_world)) (utc fresh_world)
                 (reads fresh_world) = inl (unique_violation, _))
    by (vm_compute; reflexivity).
  destruct (create_race_integrity_error performance_taken
              (PromptCreate.parse "performance" "T2" "P2" None) fresh_world _ _ eq_refl H)
    as (E & _ & Hs).
  eexists. split; [exact E|exact Hs].
Defined.

(** C6, counterexample: two creates of one category, each passing the
    existence check before either commits; the first is answered 200, the
    second raises the [IntegrityError] and is answered 500, not 400. *)
Lemma create_race_not_conflict :
  let create := get_db (create_prompt (PromptCreate.parse "x" "T" "P" None)) in
  let answers := fst (interleave [true; false] create [] create [] fresh_world) in
  status_code (fst answers) = 200%Z /\
  snd answers = Raised unique_violation /\
  status_code (snd answers) = 500%Z /\
  status_code (snd answers) <> 400%Z.
Proof.
  vm_compute. repeat split; discriminate.
Qed.

(** ** The keys are kept *)

(** Startup and every request leave [id] a primary key and [category]
    unique, so the tables the service reaches from an empty one satisfy what
    the statements above assume. *)
Lemma startup_keeps_keys (w : World) :
  primary_key (table w) -> unique_category (table w) ->
  primary_key (table (snd (serve startup_event w))) /\
  unique_category (table (snd (serve startup_event w))).
Proof.
  intros Hpk Hu. destruct w as [[|x t] clock n out].
  - split; apply (bool_decide_unpack _); vm_compute; reflexivity.
  - split; assumption.
Qed.

Lemma respond_keeps_keys (req : request) (w : World) :
  primary_key (table w) -> unique_category (table w) ->
  primary_key (table (snd (respond req w))) /\
  unique_category (table (snd (respond req w))).
Proof.
  intros Hpk Hu.
  destruct req as [| |c|p|c u|c|c]; rewrite ?respond_get_world;
    unfold respond, answer; cbn [fst snd].
  - now split.
  - now split.
  - now split.
  - destruct (stored (PromptCreate.category p) (table w)) as [r|] eqn:E.
    + rewrite (serve_create_existing p w r E). now split.
    + rewrite (serve_create_new p w E). cbn [snd table]. split.
      * now apply primary_key_append.
      * now apply unique_category_append.
  - destruct (stored c (table w)) as [r|] eqn:E.
    + rewrite (serve_update c u w r Hpk E). cbn [snd].
      unfold primary_key, unique_category. now rewrite saved_ids, saved_categories.
    + rewrite (serve_absent_update c u w E). now split.
  - destruct (stored c (table w)) as [r|] eqn:E.
    + rewrite (serve_delete c w r E). cbn [snd].
      unfold primary_key, unique_category. now rewrite saved_ids, saved_categories.
    + rewrite (serve_absent_delete c w E). now split.
  - destruct (stored c (table w)) as [r|] eqn:E.
    + rewrite (serve_activate c w r E). cbn [snd].
      unfold primary_key, unique_category. now rewrite saved_ids, saved_categories.
    + rewrite (serve_absent_activate c w E). now split.
Qed.

(** * Further properties *)

(** ** What no program does to the table *)

Section Invariant.

(** A relation between the table before and after that every successful
    flush respects is respected by every run, alone or interleaved. *)
Variable R : list Prompt.t -> list Prompt.t -> Prop.
Hypothesis R_refl : forall t, R t t.
Hypothesis R_trans : forall t1 t2 t3, R t1 t2 -> R t2 t3 -> R t1 t3.
Hypothesis R_flush : forall objs t clock n objs' t' n',
  flush objs t clock n = inr (objs', t', n') -> R t t'.

Lemma exec_rel {X} (op : Op X) s w : R (table w) (table (snd (exec op s w))).
Proof.
  destruct op; cbn [exec]; try apply R_refl.
  - destruct (stored _ _); apply R_refl.
  - destruct (flush s _ _ _) as [[e n]|[[s' t'] n']] eqn:E; cbn; [apply R_refl|].
    now apply R_flush in E.
  - destruct (s !! h) as [[|]|]; apply R_refl.
Qed.

Lemma run_rel {A} (p : Prog A) s w : R (table w) (table (snd (run p s w))).
Proof.
  revert s w. induction p as [a|e|X op k IH]; intros s w; simpl; try apply R_refl.
  pose proof (exec_rel op s w) as H.
  destruct (exec op s w) as [[x s'] w']. cbn [snd] in H.
  eapply R_trans; [exact H|apply IH].
Qed.

Lemma step_rel {A} (p : Prog A) s w : R (table w) (table (snd (step p s w))).
Proof.
  destruct p as [a|e|X op k]; simpl; try apply R_refl.
  pose proof (exec_rel op s w) as H.
  now destruct (exec op s w) as [[x s'] w'].
Qed.

Lemma interleave_rel {A B} schedule (p : Prog A) sp (q : Prog B) sq w :
  R (table w) (table (snd (interleave schedule p sp q sq w))).
Proof.
  revert p sp q sq w.
  induction schedule as [|[|] rest IH]; intros p sp q sq w; simpl.
  - pose proof (run_rel p sp w) as H1.
    destruct (run p sp w) as [[a s1] w1]. cbn [snd] in H1.
    pose proof (run_rel q sq w1) as H2.
    destruct (run q sq w1) as [[b s2] w2]. cbn [snd] in *.
    eapply R_trans; eassumption.
  - pose proof (step_rel p sp w) as H.
    destruct (step p sp w) as [[p' sp'] w']. cbn [snd] in H.
    eapply R_trans; [exact H|apply IH].
  - pose proof (step_rel q sq w) as H.
    destruct (step q sq w) as [[q' sq'] w']. cbn [snd] in H.
    eapply R_trans; [exact H|apply IH].
Qed.

Lemma serve_rel {A} (p : Prog A) w : R (table w) (table (snd (serve p w))).
Proof. rewrite serve_run. cbn [snd]. apply run_rel. Qed.

Lemma respond_rel req w : R (table w) (table (snd (respond req w))).
Proof. destruct req; try (unfold respond, answer; cbn [snd]; apply serve_rel).
  rewrite respond_get_world. apply R_refl. Qed.

Lemma serve_all_rel reqs w : R (table w) (table (serve_all reqs w)).
Proof.
  revert w. induction reqs as [|req reqs IH]; intros w; simpl; [apply R_refl|].
  eapply R_trans; [apply respond_rel|apply IH].
Qed.

End Invariant.

Section Flush.

Implicit Types (t : list Prompt.t) (objs : list obj) (clock : nat -> Z).

Lemma existsb_false_stored c t :
  existsb (has_category c) t = false -> stored c t = None.
Proof.
  unfold stored. induction t as [|r t IH]; simpl; [reflexivity|].
  destruct (has_category c r); [discriminate|]. exact IH.
Qed.

Lemma update_where_id_identity l cur st t :
  map identity (update_where_id l cur st t) = map identity t.
Proof.
  unfold update_where_id. rewrite map_map. apply map_ext.
  intros row. destruct (has_id _ row); reflexivity.
Qed.

Lemma keeps_refl t : keeps t t.
Proof. exists []. now rewrite app_nil_r. Qed.

Lemma keeps_trans t1 t2 t3 : keeps t1 t2 -> keeps t2 t3 -> keeps t1 t3.
Proof.
  intros [n1 H1] [n2 H2]. exists (n1 ++ n2). now rewrite H2, H1, app_assoc.
Qed.

Lemma flush_keeps objs t clock n objs' t' n' :
  flush objs t clock n = inr (objs', t', n') -> keeps t t'.
Proof.
  revert t n objs' t' n'.
  induction objs as [|[kw|loaded current] rest IH]; intros t n objs' t' n'; simpl.
  - intros [= _ <- _]. apply keeps_refl.
  - destruct (existsb _ t); [discriminate|].
    destruct (flush rest _ clock _) as [[e0 n0]|[[s1 t1] n1]] eqn:E; [discriminate|].
    intros [= _ <- _]. apply IH in E. eapply keeps_trans; [|exact E].
    eexists. rewrite map_app. reflexivity.
  - destruct (unchanged loaded current).
    + destruct (flush rest t clock n) as [[e0 n0]|[[s1 t1] n1]] eqn:E; [discriminate|].
      intros [= _ <- _]. now apply IH in E.
    + destruct (flush rest _ clock _) as [[e0 n0]|[[s1 t1] n1]] eqn:E; [discriminate|].
      intros [= _ <- _]. apply IH in E. eapply keeps_trans; [|exact E].
      exists []. now rewrite app_nil_r, update_where_id_identity.
Qed.

Lemma flush_keys objs t clock n objs' t' n' :
  flush objs t clock n = inr (objs', t', n') -> keys t -> keys t'.
Proof.
  revert t n objs' t' n'.
  induction objs as [|[kw|loaded current] rest IH]; intros t n objs' t' n'; simpl.
  - now intros [= _ <- _].
  - destruct (existsb _ t) eqn:Hex; [discriminate|].
    destruct (flush rest _ clock _) as [[e0 n0]|[[s1 t1] n1]] eqn:E; [discriminate|].
    intros [= _ <- _] [Hpk Hu]. apply (IH _ _ _ _ _ E). split.
    + now apply primary_key_append.
    + apply unique_category_append; [exact Hu|]. now apply existsb_false_stored.
  - destruct (unchanged loaded current).
    + destruct (flush rest t clock n) as [[e0 n0]|[[s1 t1] n1]] eqn:E; [discriminate|].
      intros [= _ <- _]. exact (IH _ _ _ _ _ E).
    + destruct (flush rest _ clock _) as [[e0 n0]|[[s1 t1] n1]] eqn:E; [discriminate|].
      intros [= _ <- _] [Hpk Hu]. apply (IH _ _ _ _ _ E).
      unfold keys, primary_key, unique_category.
      now rewrite update_where_id_ids, update_where_id_categories.
Qed.

End Flush.

Section Keys.

Lemma keys_nil : keys [].
Proof. split; apply NoDup_nil_2. Qed.

End Keys.

(** X1: whatever two programs over the session do and however their
    operations are interleaved, a table whose ids and categories are unique
    stays so: the existence check of [create_prompt] may be raced past, the
    UNIQUE index may not. *)
Theorem interleave_keeps_keys {A B} (schedule : list bool)
    (p : Prog A) (sp : Session) (q : Prog B) (sq : Session) (w : World) :
  keys (table w) -> keys (table (snd (interleave schedule p sp q sq w))).
Proof.
  apply (interleave_rel (fun a b => keys a -> keys b)).
  - intros t H. exact H.
  - intros t1 t2 t3 H1 H2 H. auto.
  - intros objs t clock n objs' t' n' H. exact (flush_keys _ _ _ _ _ _ _ H).
Qed.

Lemma interleave_keeps_keys_witness :
  let create := get_db (create_prompt (PromptCreate.parse "x" "T" "P" None)) in
  keys (table fresh_world) /\
  keys (table (snd (interleave [true; false] create [] create [] fresh_world))) /\
  length (table (snd (interleave [true; false] create [] create [] fresh_world))) = 1.
Proof.
  intros create. split; [exact keys_nil|]. split.
  - apply (interleave_keeps_keys [true; false] create [] create [] fresh_world keys_nil).
  - vm_compute. reflexivity.
Defined.

(** X2: no program over the session, run alone, interleaved with another or
    as a sequence of API requests, removes a record, moves it, or changes
    its id, category or created_at; records are only added at the end. *)
Theorem records_are_kept :
  (forall A B schedule (p : Prog A) sp (q : Prog B) sq w,
     keeps (table w) (table (snd (interleave schedule p sp q sq w)))) /\
  (forall reqs w, keeps (table w) (table (serve_all reqs w))) /\
  (forall w, keeps (table w) (table (snd (serve startup_event w)))).
Proof.
  split; [|split].
  - intros. apply interleave_rel; [apply keeps_refl|apply keeps_trans|apply flush_keeps].
  - intros. apply serve_all_rel; [apply keeps_refl|apply keeps_trans|apply flush_keeps].
  - intros. apply serve_rel; [apply keeps_refl|apply keeps_trans|apply flush_keeps].
Qed.

(** X3: every table the service reaches from an empty one, by the startup
    seeding followed by any sequence of requests, has unique ids and unique
    categories. *)
Theorem reachable_keys (reqs : list request) (w : World) :
  table w = [] -> keys (table (serve_all reqs (snd (serve startup_event w)))).
Proof.
  intros H.
  apply (serve_all_rel (fun a b => keys a -> keys b)).
  - intros t H0. exact H0.
  - intros t1 t2 t3 H1 H2 H3. auto.
  - intros objs t clock n objs' t' n' E. exact (flush_keys _ _ _ _ _ _ _ E).
  - apply (serve_rel (fun a b => keys a -> keys b)).
    + intros t H0. exact H0.
    + intros t1 t2 t3 H1 H2 H3. auto.
    + intros objs t clock n objs' t' n' E. exact (flush_keys _ _ _ _ _ _ _ E).
    + rewrite H. exact keys_nil.
Qed.

Lemma reachable_keys_witness :
  keys (table (serve_all
                 [CreatePrompt (PromptCreate.parse "x" "T" "P" None);
                  CreatePrompt (PromptCreate.parse "x" "T2" "P2" None);
                  DeletePrompt "roadmap"]
                 (snd (serve startup_event fresh_world)))).
Proof.
  apply (reachable_keys _ fresh_world). reflexivity.
Defined.

(** ** Requests one after the other *)

Section Composed.

Implicit Types (r : Prompt.t) (c : string) (w : World) (t : list Prompt.t).

(** What [GET /prompts] holds under a category. *)
Lemma listing_lookup t c :
  unique_category t ->
  prompt_dict (List.filter active t) ∅ !! c =
  match stored c t with
  | Some r => if active r
              then Some (mk_entry (Prompt.title r) (Prompt.prompt r))
              else None
  | None => None
  end.
Proof.
  intros Hu. destruct (stored c t) as [r|] eqn:E.
  - apply stored_Some in E as [Hin <-]. destruct (active r) eqn:Ha.
    + apply prompt_dict_In; [now apply unique_category_filter|].
      apply filter_In. now split.
    + destruct (prompt_dict _ _ !! _) as [e|] eqn:El; [|reflexivity].
      apply prompt_dict_Some in El as [(r' & Hin' & Hc & _)|El].
      * apply filter_In in Hin' as [Hin' Ha'].
        assert (r' = r) by (eapply unique_category_inj; eauto). congruence.
      * rewrite lookup_empty in El. discriminate.
  - destruct (prompt_dict _ _ !! _) as [e|] eqn:El; [|reflexivity].
    apply prompt_dict_Some in El as [(r' & Hin' & Hc & _)|El].
    + apply filter_In in Hin' as [Hin' _]. apply stored_None in E.
      exfalso. apply E. rewrite <- Hc. now apply in_map.
    + rewrite lookup_empty in El. discriminate.
Qed.

(** The world [update_prompt] leaves, whatever the table. *)
Lemma serve_update_world c u w r :
  stored c (table w) = Some r ->
  snd (serve (update_prompt c u) w) =
  saved r (fold_left (fun p a => setattr a p) (update_data u) r) w.
Proof.
  intros H. rewrite serve_run. unfold update_prompt.
  rewrite run_bind. cbn [run call exec]. rewrite H. cbn [length app].
  rewrite run_for_each_setattr, run_touch.
  cbn [run refresh call bind exec lookup list_lookup].
  destruct (row_of_id _ _); reflexivity.
Qed.

Lemma startup_noop w : table w <> [] -> serve startup_event w = (Returned tt, w).
Proof.
  destruct w as [[|x t] clock n out]; cbn [table]; [contradiction|reflexivity].
Qed.

End Composed.





(** X6: once a stored record is activated, [GET /prompts] has it under its
    category, with its title and prompt. *)
Theorem activate_then_listed (c : string) (w : World) (r : Prompt.t) :
  keys (table w) ->
  stored c (table w) = Some r ->
  let w1 := snd (serve (activate_prompt c) w) in
  exists d,
    serve get_prompts w1 = (Returned d, w1) /\
    d !! c = Some (mk_entry (Prompt.title r) (Prompt.prompt r)).
Proof.
  intros [Hpk Hu] H w1. unfold w1. rewrite (serve_activate c w r H). cbn [snd].
  set (cur := Prompt.set_is_active (Some true) r).
  pose proof (saved_stored c r cur w H) as Hs.
  destruct (touched_fields r cur w) as (Heq & _); try reflexivity.
  eexists. rewrite serve_get_prompts. split; [reflexivity|].
  rewrite listing_lookup, Hs.
  - rewrite Heq. reflexivity.
  - unfold unique_category. now rewrite saved_categories.
Qed.

Lemma activate_then_listed_witness :
  keys (table (off_world "roadmap")) /\
  exists d,
    fst (serve get_prompts (snd (serve (activate_prompt "roadmap") (off_world "roadmap"))))
      = Returned d /\
    entry_title <$> d !! "roadmap" = Some (Some "Product Roadmap Analysis").
Proof.
  assert (Hk : keys (table (off_world "roadmap"))).
  { split; apply (bool_decide_unpack _); vm_compute; reflexivity. }
  split; [exact Hk|].
  eassert (Hs : stored "roadmap" (table (off_world "roadmap")) = Some _)
    by (vm_compute; reflexivity).
  destruct (activate_then_listed "roadmap" (off_world "roadmap") _ Hk Hs) as (d & E & Hd).
  exists d. rewrite E, Hd. split; reflexivity.
Defined.

(** X7: on the store, [DELETE /prompts/{category}] is [PUT] with only
    [is_active] set to false, and [POST /prompts/{category}/activate] is
    [PUT] with only [is_active] set to true: each pair leaves the same
    world, for a stored and for an absent category. *)
Theorem toggle_is_update (c : string) (w : World) :
  snd (serve (delete_prompt c) w) =
    snd (serve (update_prompt c (PromptUpdate.mk None None (Some (Some false)))) w) /\
  snd (serve (activate_prompt c) w) =
    snd (serve (update_prompt c (PromptUpdate.mk None None (Some (Some true)))) w).
Proof.
  destruct (stored c (table w)) as [r|] eqn:H.
  - rewrite (serve_delete c w r H), (serve_activate c w r H).
    rewrite !(serve_update_world c _ w r H). split; reflexivity.
  - rewrite (serve_absent_delete c w H), (serve_absent_activate c w H).
    rewrite !(serve_absent_update c _ w H). split; reflexivity.
Qed.

(** X8: an update whose body sets [is_active] to null stores a record that
    is neither active nor inactive: it keeps its other fields, and
    [GET /prompts] no longer has an entry for its category. *)
Theorem update_null_flag (c : string) (w : World) (r : Prompt.t) :
  keys (table w) ->
  stored c (table w) = Some r ->
  let w1 := snd (serve (update_prompt c (PromptUpdate.mk None None (Some None))) w) in
  exists r1 d,
    stored c (table w1) = Some r1 /\
    r1 = Prompt.set_updated_at (Prompt.updated_at r1) (Prompt.set_is_active None r) /\
    serve get_prompts w1 = (Returned d, w1) /\
    d !! c = None.
Proof.
  intros [Hpk Hu] H w1. unfold w1. rewrite (serve_update_world c _ w r H).
  cbn [update_data PromptUpdate.title PromptUpdate.prompt PromptUpdate.is_active
       app fold_left setattr].
  set (cur := Prompt.set_is_active None r).
  pose proof (saved_stored c r cur w H) as Hs.
  destruct (touched_fields r cur w) as (Heq & _); try reflexivity.
  eexists _, _. split; [exact Hs|]. split; [exact Heq|].
  rewrite serve_get_prompts. split; [reflexivity|].
  rewrite listing_lookup, Hs.
  - rewrite Heq. reflexivity.
  - unfold unique_category. now rewrite saved_categories.
Qed.

Lemma update_null_flag_witness :
  keys (table seeded_world) /\
  exists d,
    fst (serve get_prompts
           (snd (serve (update_prompt "roadmap" (PromptUpdate.mk None None (Some None)))
                   seeded_world))) = Returned d /\
    d !! "roadmap" = None.
Proof.
  assert (Hk : keys (table seeded_world)).
  { split; apply (bool_decide_unpack _); vm_compute; reflexivity. }
  split; [exact Hk|].
  eassert (Hs : stored "roadmap" (table seeded_world) = Some _) by (vm_compute; reflexivity).
  destruct (update_null_flag "roadmap" seeded_world _ Hk Hs) as (r1 & d & _ & _ & E & Hd).
  exists d. rewrite E. split; [reflexivity|exact Hd].
Defined.

(** ** Sessions and startup *)

(** X9: [get_db] hands the handler's outcome and world through unchanged,
    whether the handler returns or raises, alone or among other
    transactions, and always leaves the session closed. *)
Theorem get_db_closes {A} (handler : Prog A) (s : Session) (w : World) :
  run (get_db handler) s w =
    (fst (fst (run handler s w)), [], snd (run handler s w)) /\
  forall others,
    run_among others (get_db handler) s w =
    (fst (fst (run_among others handler s w)), [], snd (run_among others handler s w)).
Proof.
  split.
  - unfold get_db. revert s w.
    induction handler as [a|e|X op k IH]; intros s w; simpl; try reflexivity.
    destruct (exec op s w) as [[x s'] w']. apply IH.
  - intros others. unfold get_db. revert s w.
    induction handler as [a|e|X op k IH]; intros s w; simpl; try reflexivity.
    destruct (exec op s _) as [[x s'] w']. apply IH.
Qed.

(** X10: [init_default_prompts] never raises and always closes its
    session: whatever the table holds and whatever other transactions commit
    before its own commit, it returns normally. *)
Theorem startup_never_raises (others : list Prompt.t -> list Prompt.t) (w : World) :
  fst (run_among others startup_event [] w) = (Returned tt, []).
Proof.
  unfold startup_event, init_default_prompts. generalize default_prompts as kws.
  intros kws. destruct w as [t clock m out].
  unfold init_prompts. rewrite run_among_close. cbn [fst]. f_equal.
  rewrite run_among_try_except, run_among_bind.
  cbn [run_among call exec table]. destruct t as [|x t]; [|reflexivity].
  cbn [length Nat.ltb Nat.leb].
  rewrite run_among_bind, run_among_adds. cbn [app].
  rewrite run_among_bind. unfold commit. rewrite run_among_bind.
  cbn [run_among call exec table utc reads stdout with_table].
  destruct (flush _ _ _ _) as [[e n]|[[s' t'] n']]; reflexivity.
Qed.

(** X11: seeding happens at most once: whatever the world, a second run of
    the startup hook right after the first changes nothing. *)
Theorem startup_twice (w : World) :
  let w1 := snd (serve startup_event w) in
  serve startup_event w1 = (Returned tt, w1).
Proof.
  cbn zeta. destruct (table w) as [|x t] eqn:E.
  - apply startup_noop. destruct w as [t0 clock n out]. cbn [table] in E. subst t0.
    vm_compute. discriminate.
  - assert (H : table w <> []) by (rewrite E; discriminate).
    rewrite (startup_noop w H). cbn [snd]. now apply startup_noop.
Qed.

(** X12: only a create adds a record, and only when its category is free:
    for every request the number of stored records afterwards is the number
    before, plus one exactly for a create of a category not yet stored. *)
Theorem record_count (req : request) (w : World) :
  length (table (snd (respond req w))) =
  length (table w) +
  match req with
  | CreatePrompt p =>
      match stored (PromptCreate.category p) (table w) with
      | Some _ => 0
      | None => 1
      end
  | _ => 0
  end.
Proof.
  destruct req as [| |c|p|c u|c|c]; rewrite ?respond_get_world;
    unfold respond, answer; cbn [fst snd].
  - simpl. lia.
  - simpl. lia.
  - lia.
  - destruct (stored (PromptCreate.category p) (table w)) as [r|] eqn:E.
    + rewrite (serve_create_existing p w r E). cbn [snd]. lia.
    + rewrite (serve_create_new p w E). cbn [snd table]. rewrite length_app. reflexivity.
  - destruct (stored c (table w)) as [r|] eqn:E.
    + rewrite (serve_update_world c u w r E), saved_length. lia.
    + rewrite (serve_absent_update c u w E). cbn [snd]. lia.
  - destruct (stored c (table w)) as [r|] eqn:E.
    + rewrite (serve_delete c w r E). cbn [snd]. rewrite saved_length. lia.
    + rewrite (serve_absent_delete c w E). cbn [snd]. lia.
  - destruct (stored c (table w)) as [r|] eqn:E.
    + rewrite (serve_activate c w r E). cbn [snd]. rewrite saved_length. lia.
    + rewrite (serve_absent_activate c w E). cbn [snd]. lia.
Qed.

(** X13: a create among other transactions succeeds when its category is
    free both at the existence check and at its commit: the new record comes
    after whatever the others committed, with the next id of that table. *)
Theorem create_among_others (others : list Prompt.t -> list Prompt.t)
    (p : PromptCreate.t) (w : World) :
  stored (PromptCreate.category p) (table w) = None ->
  stored (PromptCreate.category p) (others (table w)) = None ->
  let row := insert_row (PromptCreate.dict p) (others (table w))
               (utc w (reads w)) (utc w (S (reads w))) in
  run_among others (get_db (create_prompt p)) [] w =
  (Returned row, [],
   mk_world (others (table w) ++ [row]) (utc w) (S (S (reads w))) (stdout w)).
Proof.
  intros H1 H2 row. destruct w as [t clock m out]. cbn [table utc reads stdout] in *.
  unfold get_db, create_prompt. rewrite run_among_close, run_among_bind.
  cbn [run_among call exec table]. rewrite H1.
  unfold add. rewrite run_among_bind. cbn [run_among call exec length app].
  unfold commit. rewrite !run_among_bind.
  cbn [run_among call exec table utc reads stdout with_table flush
       PromptCreate.dict Prompt.kw_category].
  rewrite (stored_None_existsb _ _ H2).
  cbn [run_among refresh call bind exec lookup list_lookup with_reads with_table
       table utc reads stdout].
  change (Prompt.id (insert_row _ (others t) _ _)) with (next_id (others t)).
  rewrite row_of_id_inserted. reflexivity.
Qed.

Lemma create_among_others_witness :
  exists row,
    fst (fst (run_among performance_taken
                (get_db (create_prompt (PromptCreate.parse "x" "T" "P" None)))
                [] fresh_world)) = Returned row /\
    Prompt.id row = 2%Z.
Proof.
  pose proof (create_among_others performance_taken
                (PromptCreate.parse "x" "T" "P" None) fresh_world eq_refl eq_refl) as E.
  cbn zeta in E. eexists. rewrite E. split; reflexivity.
Defined.

(** X14: after the startup seeding of an empty table, [GET /prompts] serves
    every default: each category of [default_prompts] is a key, with the
    default's title and prompt, and there are no other keys. *)
Theorem defaults_served (w : World) :
  table w = [] ->
  let w1 := snd (serve startup_event w) in
  exists d,
    serve get_prompts w1 = (Returned d, w1) /\
    Forall (fun kw =>
              d !! Prompt.kw_category kw =
              Some (mk_entry (Some (Prompt.kw_title kw)) (Some (Prompt.kw_prompt kw))))
           default_prompts /\
    size d = length default_prompts.
Proof.
  destruct w as [t clock n out]. cbn [table]. intros ->. cbn zeta.
  eexists. split; [apply serve_get_prompts|]. split.
  - repeat constructor; vm_compute; reflexivity.
  - vm_compute. reflexivity.
Qed.

Lemma defaults_served_witness :
  exists d,
    fst (serve get_prompts seeded_world) = Returned d /\
    size d = 6.
Proof.
  destruct (defaults_served fresh_world eq_refl) as (d & E & _ & Hsize).
  exists d. fold seeded_world in E. rewrite E. split; [reflexivity|exact Hsize].
Defined.

(** X15: reading changes nothing: [GET /] answers its two constants, and
    any sequence of [GET /prompts], [GET /prompts/all] and
    [GET /prompts/{category}] requests, found or not, leaves the world as it
    was; [GET /health] only reads the clock, reporting that reading. *)
Theorem reads_change_nothing (w : World) :
  (forall reqs, forallb is_get reqs = true -> serve_all reqs w = w) /\
  serve root w =
    (Returned (<["message" := "AI PM Prompt Management API"]> {[ "version" := "1.0.0" ]}), w) /\
  serve health_check w =
    (Returned (mk_health "healthy" (utc w (reads w))), with_reads (S (reads w)) w).
Proof.
  split; [|split; reflexivity].
  intros reqs. induction reqs as [|req reqs IH]; simpl; [reflexivity|].
  intros H. apply andb_prop in H as [Hreq Hrest].
  destruct req; try discriminate; rewrite ?respond_get_world;
    unfold respond, answer; cbn [snd].
  - now apply IH.
  - now apply IH.
  - now apply IH.
Qed.

Lemma reads_change_nothing_witness :
  serve_all [GetPrompts; GetPromptByCategory "absent"; GetAllPrompts] seeded_world =
  seeded_world.
Proof.
  apply (reads_change_nothing seeded_world). reflexivity.
Defined.

(** ** Timestamps under a clock that never goes back *)

Section Timely.

Implicit Types (t : list Prompt.t) (clock : nat -> Z) (w : World) (r : Prompt.t).

Lemma monotone_le clock n m : monotone clock -> n <= m -> (clock n <= clock m)%Z.
Proof.
  intros Hm Hle. induction Hle as [|m Hle IH]; [lia|].
  specialize (Hm m). lia.
Qed.

Lemma run_try_except {A} (p : Prog A) (h : exn -> Prog A) s w :
  run (try_except p h) s w =
  match run p s w with
  | (Returned a, s', w') => (Returned a, s', w')
  | (Raised e, s', w') => run (h e) s' w'
  end.
Proof.
  revert s w. induction p as [a|e|X op k IH]; intros s w; simpl; try reflexivity.
  destruct (exec op s w) as [[x s'] w']. apply IH.
Qed.

Lemma run_adds kws (s : Session) w :
  run (for_each kws (fun prompt_data => add prompt_data ;; Ret tt)) s w =
  (Returned tt, s ++ map Pending kws, w).
Proof.
  revert s. induction kws as [|kw kws IH]; intros s; simpl.
  - now rewrite app_nil_r.
  - rewrite IH, <- app_assoc. reflexivity.
Qed.

(** The rows a flush inserts are stamped with the readings it takes. *)
Lemma flush_pending_timely kws t clock n objs' t' n' :
  monotone clock ->
  (forall r, In r t ->
     (Prompt.created_at r <= Prompt.updated_at r <= clock n)%Z) ->
  flush (map Pending kws) t clock n = inr (objs', t', n') ->
  forall r, In r t' ->
    (Prompt.created_at r <= Prompt.updated_at r <= clock n')%Z.
Proof.
  intros Hm. revert t n objs' t' n'.
  induction kws as [|kw kws IH]; intros t n objs' t' n' Ht; simpl.
  - intros [= _ <- <-]. exact Ht.
  - destruct (existsb _ t); [discriminate|].
    destruct (flush (map Pending kws) _ clock _) as [[e0 n0]|[[s1 t1] n1]] eqn:E;
      [discriminate|].
    intros [= _ <- <-]. eapply IH; [|exact E].
    intros r Hin. apply in_app_or in Hin as [Hin|[<-|[]]].
    + specialize (Ht r Hin). pose proof (Hm n). pose proof (Hm (S n)). lia.
    + simpl. pose proof (Hm n). pose proof (Hm (S n)). lia.
Qed.

Lemma saved_timely r cur w :
  monotone (utc w) -> timely w -> timely (saved r cur w).
Proof.
  intros Hm Ht row. unfold saved. cbn [table utc reads].
  pose proof (Hm (reads w)) as H1. pose proof (Hm (S (reads w))) as H2.
  destruct (unchanged r _).
  - intros Hin. specialize (Ht row Hin). lia.
  - unfold update_where_id. intros Hin. apply in_map_iff in Hin as (row0 & <- & Hin).
    specialize (Ht row0 Hin).
    destruct (has_id _ row0).
    + cbn [update_row Prompt.created_at Prompt.updated_at Prompt.set_updated_at].
      case_bool_decide; lia.
    + case_bool_decide; lia.
Qed.

Lemma startup_timely w :
  monotone (utc w) -> timely w ->
  timely (snd (serve startup_event w)) /\ utc (snd (serve startup_event w)) = utc w.
Proof.
  intros Hm Ht. rewrite serve_run. cbn [snd].
  unfold startup_event, init_default_prompts. generalize default_prompts as kws.
  intros kws. destruct w as [t clock m out]. cbn [utc] in Hm.
  unfold init_prompts.
  change (try_finally ?a (call Close)) with (get_db a).
  rewrite run_get_db. cbn [snd].
  rewrite run_try_except, run_bind. cbn [run call exec table].
  destruct t as [|x t]; [|split; [exact Ht|reflexivity]].
  cbn [length Nat.ltb Nat.leb].
  rewrite run_bind, run_adds. cbn [app].
  rewrite run_bind. unfold commit. rewrite run_bind.
  cbn [run call exec table utc reads stdout with_table].
  destruct (flush _ _ _ _) as [[e n]|[[s' t'] n']] eqn:E; cbn; split; try reflexivity.
  - intros r [].
  - intros r Hin. cbn in Hin.
    eapply (flush_pending_timely kws [] clock m); eauto.
Qed.

Lemma respond_timely req w :
  monotone (utc w) -> timely w ->
  timely (snd (respond req w)) /\ utc (snd (respond req w)) = utc w.
Proof.
  intros Hm Ht.
  destruct req as [| |c|p|c u|c|c]; rewrite ?respond_get_world;
    unfold respond, answer; cbn [fst snd].
  - now split.
  - now split.
  - now split.
  - destruct (stored (PromptCreate.category p) (table w)) as [r|] eqn:E.
    + rewrite (serve_create_existing p w r E). now split.
    + rewrite (serve_create_new p w E). cbn [snd]. split; [|reflexivity].
      intros row Hin. cbn [table utc reads] in *.
      pose proof (Hm (reads w)). pose proof (Hm (S (reads w))).
      apply in_app_or in Hin as [Hin|[<-|[]]].
      * specialize (Ht row Hin). lia.
      * simpl. lia.
  - destruct (stored c (table w)) as [r|] eqn:E.
    + rewrite (serve_update_world c u w r E). split; [now apply saved_timely|reflexivity].
    + rewrite (serve_absent_update c u w E). now split.
  - destruct (stored c (table w)) as [r|] eqn:E.
    + rewrite (serve_delete c w r E). split; [now apply saved_timely|reflexivity].
    + rewrite (serve_absent_delete c w E). now split.
  - destruct (stored c (table w)) as [r|] eqn:E.
    + rewrite (serve_activate c w r E). split; [now apply saved_timely|reflexivity].
    + rewrite (serve_absent_activate c w E). now split.
Qed.

Lemma serve_all_timely reqs w :
  monotone (utc w) -> timely w -> timely (serve_all reqs w).
Proof.
  revert w. induction reqs as [|req reqs IH]; intros w Hm Ht; simpl; [exact Ht|].
  destruct (respond_timely req w Hm Ht) as [Ht' Hu].
  apply IH; [now rewrite Hu|exact Ht'].
Qed.

End Timely.

(** X16: when the clock never goes back, every record the service stores,
    by the startup seeding of an empty table and any sequence of requests
    after it, has [created_at] no later than [updated_at], and neither is
    later than the clock's current reading. *)
Theorem timestamps_in_order (reqs : list request) (w : World) :
  monotone (utc w) ->
  table w = [] ->
  timely (serve_all reqs (snd (serve startup_event w))).
Proof.
  intros Hm He.
  assert (Ht : timely w) by (intros r Hin; rewrite He in Hin; destruct Hin).
  destruct (startup_timely w Hm Ht) as [Ht' Hu].
  apply serve_all_timely; [now rewrite Hu|exact Ht'].
Qed.

Lemma timestamps_in_order_witness :
  monotone ticking /\
  timely (serve_all [CreatePrompt (PromptCreate.parse "x" "T" "P" None);
                     DeletePrompt "roadmap"]
            (snd (serve startup_event fresh_world))).
Proof.
  assert (Hm : monotone ticking) by (intros n; unfold ticking; lia).
  split; [exact Hm|].
  apply (timestamps_in_order _ fresh_world Hm eq_refl).
Defined.
